(** * thumbnail_maker: a shallow embedding of [thumb.py]

    The program scans a directory for video files and writes one contact
    sheet per video.  This development embeds its functions
    ([find_closest_numbers], [check_frame_dimensions],
    [create_thumbnail_grid], [save_black_image] and the file filter of
    [process_videos_in_directory]) and proves properties about them.

    Numbers.  Python [int] is [Z].  A Python [float] is read as the exact
    rational it denotes ([Q]): [/] is exact division, [int] truncates
    toward zero, [round] rounds half to even, [//] and [divmod] floor.
    The rounding to binary64 of each intermediate result is left out of
    the model; [Binary64] recomputes the quotients of the examples with
    it.

    Strings.  A Python [str] is the [string] of its UTF-8 bytes; the
    characters the program looks for ([/], [.], the video suffixes) are
    ASCII, so a search or a suffix test on the bytes is the one on the
    characters.  [str.lower] follows the Unicode tables, which are not
    part of this development: it is an interface ([Lower]) of which only
    its action on ASCII text is used.  Paths follow [posixpath].

    Effects.  The OpenCV calls are an interface ([Cv2]); the pipeline is
    written in a small state-and-exception monad over a [World] that holds
    the output folder, the console, the progress bar and the calls made on
    the capture handle. *)

From Stdlib Require Import ZArith QArith Qround Lia Lqa.
From Stdlib Require Import Ascii DecimalString SpecFloat.
From stdpp Require Import base list list_numbers gmap strings.

Local Open Scope Z_scope.

(** ** Python numbers *)

Module Py.

(** [int(x)] on a float: truncation toward zero. *)
Definition int (x : Q) : Z := Z.quot (Qnum x) (Zpos (Qden x)).

(** [round(x)] on a float: the nearest integer, ties to the even one. *)
Definition round (x : Q) : Z :=
  let f := Qfloor x in
  match Qcompare (x - inject_Z f) (1 # 2) with
  | Lt => f
  | Gt => f + 1
  | Eq => if Z.even f then f else f + 1
  end.

(** [int(x ** 0.5)] for [x >= 0]: the floor of the square root.  The floor
    of the real square root of [x] is the integer square root of the
    floor of [x] (see [isqrt_spec]). *)
Definition isqrt (x : Q) : Z := Z.sqrt (Qfloor x).

(** [float('inf')] next to the integers it is compared with. *)
Inductive ext := Fin (z : Z) | Inf.

Definition lt_ext (z : Z) (b : ext) : bool :=
  match b with
  | Inf => true
  | Fin y => z <? y
  end.

(** [divmod(a, b)] of an int and a nonzero float: the floored quotient and
    the remainder, which has the sign of [b]. *)
Definition divmod (a : Z) (b : Q) : Q * Q :=
  let q := inject_Z (Qfloor (inject_Z a / b)) in
  (q, inject_Z a - q * b)%Q.

(** Exceptions the program can meet.  [cv2_error] is the only one it
    catches. *)
Inductive Exc :=
| cv2_error (msg : string)
| ZeroDivisionError
| TypeError.

(** The value of an expression: a result or a raised exception. *)
Inductive result (A : Type) :=
| Ok (a : A)
| Err (e : Exc).
Arguments Ok {A} a.
Arguments Err {A} e.

End Py.

Import Py.

(** ** Python strings *)

Module Str.

(** [c.lower()] on one character: the ASCII capitals move down by 32. *)
Definition lower_ascii (c : ascii) : ascii :=
  let n := Ascii.N_of_ascii c in
  if ((65 <=? n) && (n <=? 90))%N then Ascii.ascii_of_N (n + 32) else c.

(** [s.lower()] for a string [s] of ASCII characters. *)
Fixpoint lower (s : string) : string :=
  match s with
  | EmptyString => EmptyString
  | String c s' => String (lower_ascii c) (lower s')
  end.

Definition chars (s : string) : list ascii := String.list_ascii_of_string s.

(** [s.isascii()] *)
Definition isascii (s : string) : bool :=
  forallb (fun c => (Ascii.N_of_ascii c <? 128)%N) (chars s).

(** [s.endswith(suffix)]. *)
Definition endswith (s suffix : string) : bool :=
  bool_decide (chars suffix `suffix_of` chars s).

(** [s.endswith(suffixes)] with a tuple of suffixes. *)
Definition endswith_any (s : string) (suffixes : list string) : bool :=
  existsb (endswith s) suffixes.

(** [s.startswith(prefix)]. *)
Definition startswith (s prefix : string) : bool := String.prefix prefix s.

(** [s[:n]] and [s[n:]] for [0 <= n]. *)
Definition take (n : nat) (s : string) : string := String.substring 0 n s.
Definition drop (n : nat) (s : string) : string :=
  String.substring n (String.length s - n) s.

(** [s[:-n]] for [0 < n]: all but the last [n] characters. *)
Definition drop_last (n : nat) (s : string) : string :=
  take (String.length s - n) s.

(** [s.rfind(c)]: the index of the last [c] in [s], counted from [i]. *)
Fixpoint rfind_from (c : ascii) (s : string) (i : nat) : option nat :=
  match s with
  | EmptyString => None
  | String a s' =>
      match rfind_from c s' (S i) with
      | Some k => Some k
      | None => if Ascii.eqb a c then Some i else None
      end
  end.
Definition rfind (c : ascii) (s : string) : option nat := rfind_from c s 0.

(** ["%d" % z]. *)
Definition of_Z (z : Z) : string := NilZero.string_of_int (Z.to_int z).

(** Left padding with zeros up to [width] characters, as in ["%02d"] for
    a number that is not negative. *)
Fixpoint zeros (n : nat) : string :=
  match n with
  | O => EmptyString
  | S n' => String "0"%char (zeros n')
  end.
Definition zfill (width : nat) (s : string) : string :=
  zeros (width - String.length s) +:+ s.

End Str.

(** ** Paths ([posixpath]) *)

Module Path.

(** [os.path.basename(p)]: what follows the last slash. *)
Definition basename (p : string) : string :=
  match Str.rfind "/"%char p with
  | Some i => Str.drop (S i) p
  | None => p
  end.

(** Is there a character other than a dot in [p[lo:hi]]? *)
Definition has_non_dot (p : string) (lo hi : nat) : bool :=
  existsb (fun c => negb (Ascii.eqb c "."%char)) (Str.chars (String.substring lo (hi - lo) p)).

(** [os.path.splitext(p)]: the extension starts at the last dot, when that
    dot comes after the last slash and after a character of the file name
    that is not a dot. *)
Definition splitext (p : string) : string * string :=
  let filenameIndex := match Str.rfind "/"%char p with Some i => S i | None => O end in
  match Str.rfind "."%char p with
  | Some dotIndex =>
      if (filenameIndex <=? dotIndex)%nat && has_non_dot p filenameIndex dotIndex
      then (Str.take dotIndex p, Str.drop dotIndex p)
      else (p, EmptyString)
  | None => (p, EmptyString)
  end.

(** [os.path.join(a, b)]. *)
Definition join (a b : string) : string :=
  if Str.startswith b "/" then b
  else if String.eqb a EmptyString || Str.endswith a "/" then a +:+ b
  else a +:+ "/" +:+ b.

End Path.

(** ** [datetime.timedelta] *)

Module Timedelta.

(** A normalised duration: [0 <= seconds < 86400] and
    [0 <= microseconds < 1000000]. *)
Record t := { days : Z; seconds : Z; microseconds : Z }.

(** [timedelta(seconds=s, milliseconds=ms)]: the sum is rounded to the
    nearest microsecond, ties to even, and carried into seconds and
    days. *)
Definition make (s ms : Q) : t :=
  let us := Py.round (s * 1000000 + ms * 1000)%Q in
  let whole := us / 1000000 in
  {| days := whole / 86400;
     seconds := whole mod 86400;
     microseconds := us mod 1000000 |}.

(** [str(d)]: ["H:MM:SS"], preceded by the days when there are some and
    followed by the six digits of the microseconds when there are some. *)
Definition str (d : t) : string :=
  let mm := seconds d / 60 in
  let ss := seconds d mod 60 in
  let hh := mm / 60 in
  let mm := mm mod 60 in
  let s := Str.of_Z hh +:+ ":" +:+ Str.zfill 2 (Str.of_Z mm)
           +:+ ":" +:+ Str.zfill 2 (Str.of_Z ss) in
  let s := if days d =? 0 then s
           else Str.of_Z (days d) +:+ " day"
                +:+ (if Z.abs (days d) =? 1 then EmptyString else "s") +:+ ", " +:+ s in
  if microseconds d =? 0 then s
  else s +:+ "." +:+ Str.zfill 6 (Str.of_Z (microseconds d)).

End Timedelta.

(** ** FrameAnnotator: the text and the size (thumb.py, lines 70-87) *)

(** Lines 79-80 and the slice of line 86: the text drawn on the frame
    read at [current_frame]. *)
Definition timestamp_text (current_frame : Z) (fps : Q) : string :=
  let '(timestamp_seconds, milliseconds) := Py.divmod current_frame fps in
  let timestamp := Timedelta.str (Timedelta.make timestamp_seconds milliseconds) in
  Str.drop_last 4 timestamp.

(** Line 74: [int(max(400, int(cap.get(3) // grid_size[0])))], for
    columns that are not zero.  [cap_width] is [cap.get(3)]. *)
Definition target_width (cap_width : Q) (columns : Z) : Z :=
  Z.max 400 (Py.int (inject_Z (Qfloor (cap_width / inject_Z columns)))).

(** Lines 71-75: the size a frame of shape [(h, w, _)] is resized to,
    as [(target_width, target_height)].  Each of the three divisions
    raises ZeroDivisionError on a zero divisor.  The two quotients of the
    height are taken exactly here; [Binary64.target_height] takes them
    in double precision, as Python does, and can be one less. *)
Definition target_size (cap_width : Q) (columns : Z) (frame_shape : Z * Z * Z)
  : result (Z * Z) :=
  let '(h, w, _) := frame_shape in
  if h =? 0 then Err ZeroDivisionError else
  let aspect_ratio := (inject_Z w / inject_Z h)%Q in
  if columns =? 0 then Err ZeroDivisionError else
  let target_width := target_width cap_width columns in
  if Qeq_bool aspect_ratio 0 then Err ZeroDivisionError else
  let target_height := Py.int (inject_Z target_width / aspect_ratio) in
  Ok (target_width, target_height).

(** ** GridSizer: [find_closest_numbers] (thumb.py, lines 147-159) *)

(** The loop state: [(closest_pair, closest_difference)]. *)
Definition sizer_state : Type := option (Z * Z) * ext.

(** [j = round(target / i)]. *)
Definition partner (target : Q) (i : Z) : Z := Py.round (target / inject_Z i).

(** The body of the [for] loop, for one [i]. *)
Definition closest_step (target : Q) (st : sizer_state) (i : Z) : sizer_state :=
  let j := partner target i in
  let difference := Z.abs (i - j) in
  if lt_ext difference (snd st)
  then (Some (Z.max i j, Z.min i j), Fin difference)
  else st.

(** [range(1, int(target ** 0.5) + 2)]. *)
Definition sizer_range (target : Q) : list Z := seqZ 1 (isqrt target + 1).

(** For a negative [target], [target ** 0.5] is a complex number and
    [int] raises TypeError. *)
Definition find_closest_numbers (target : Q) : result (option (Z * Z)) :=
  if Qle_bool 0 target
  then Ok (fst (foldl (closest_step target) (None, Inf) (sizer_range target)))
  else Err TypeError.

(** ** DirectoryWalker: the file filter (thumb.py, line 169) *)

(** [str.lower()], as far as the filter relies on it: a string of ASCII
    characters is lowered letter by letter, and an ASCII string at the end
    of a string is lowered the same way whatever comes before it (Python
    lowers character by character; the one rule that looks at the
    neighbours of a character, for the Greek capital sigma, changes that
    character only).  A character that is not ASCII may be lowered to an
    ASCII letter, as the Kelvin sign is to [k]. *)
Class Lower := {
  lower : string -> string;
  lower_on_ascii : forall s, Str.isascii s = true -> lower s = Str.lower s;
  lower_keeps_ascii_suffix :
    forall s t, Str.isascii t = true ->
                exists s', lower (s +:+ t) = s' +:+ Str.lower t
}.

(** The lowering that knows the ASCII letters only. *)
Definition ascii_lower : Lower.
Proof.
  refine {| lower := Str.lower |}.
  - reflexivity.
  - intros s t _. exists (Str.lower s).
    induction s as [| c s IH]; [reflexivity |].
    change (String c s +:+ t) with (String c (s +:+ t)).
    cbn [Str.lower]. rewrite IH. reflexivity.
Defined.

Definition video_suffixes : list string := [".mp4"; ".avi"; ".mkv"; ".mov"; "m4v"].

Definition is_video_file {lw : Lower} (file : string) : bool :=
  Str.endswith_any (lower file) video_suffixes.

(** [video_files = [file for file in files if ...]]. *)
Definition video_files {lw : Lower} (files : list string) : list string :=
  List.filter is_video_file files.

(** ** The OpenCV interface *)

(** The arguments of [cv2.putText] after the image and the text. *)
Record TextStyle := {
  org : Z * Z;
  fontFace : string;
  fontScale : Q;
  color : Z * Z * Z;
  thickness : Z;
  lineType : string
}.

(** The calls the program makes on images.  [shape] is numpy's
    [(height, width, channels)]; [resize] takes [dsize = (width, height)].
    [resize], [hconcat] and [vconcat] may raise; [np.zeros], [putText]
    and [imwrite] are taken not to. *)
Class Cv2 := {
  Image : Type;
  shape : Image -> Z * Z * Z;
  zeros : Z * Z * Z -> Image;
  resize : Image -> Z * Z -> result Image;
  putText : Image -> string -> TextStyle -> Image;
  hconcat : list Image -> result Image;
  vconcat : list Image -> result Image
}.

(** An opened (or not) [cv2.VideoCapture].  [read_at n] is what
    [cap.read()] gives after [cap.set(cv2.CAP_PROP_POS_FRAMES, n)]:
    [Ok (Some frame)] for [(True, frame)], [Ok None] for [(False, None)],
    or a raised exception.  [cap.get], [cap.set] and [cap.release] are
    taken not to raise. *)
Record VideoCapture `{Cv2} := {
  isOpened : bool;
  CAP_PROP_FPS : Q;
  CAP_PROP_FRAME_COUNT : Q;
  CAP_PROP_FRAME_WIDTH : Q;
  read_at : Z -> result (option Image)
}.

(** A call made on the capture handle. *)
Inductive CapCall :=
| CapSet (pos : Z)
| CapRead (ret : bool)
| CapRelease.

#[global] Instance CapCall_eq_dec : EqDecision CapCall.
Proof. solve_decision. Defined.

(** ** The world and the statement monad *)

(** How a block of statements ends: it falls through with a value, it
    executes [return], or it raises. *)
Inductive Flow (A : Type) :=
| Normal (a : A)
| Returned
| Raised (e : Exc).
Arguments Normal {A} a.
Arguments Returned {A}.
Arguments Raised {A} e.

Section Pipeline.
Context `{cv : Cv2}.

Record World := {
  files : gmap string Image;      (* images on disk, by path *)
  stdout : list string;           (* lines printed, oldest first *)
  cap_calls : list CapCall;       (* calls on the handle, oldest first *)
  position : Z;                   (* the frame index last set *)
  progress : Z                    (* the count of the progress bar *)
}.

Definition M (A : Type) : Type := World -> Flow A * World.

#[global] Instance M_ret : MRet M := fun A a w => (Normal a, w).

#[global] Instance M_bind : MBind M := fun A B f m w =>
  match m w with
  | (Normal a, w') => f a w'
  | (Returned, w') => (Returned, w')
  | (Raised e, w') => (Raised e, w')
  end.

(** [return] *)
Definition return_ {A} : M A := fun w => (Returned, w).

(** An expression that may raise. *)
Definition eval {A} (r : result A) : M A := fun w =>
  match r with
  | Ok a => (Normal a, w)
  | Err e => (Raised e, w)
  end.

(** [try: body except cv2.error as e: handler] *)
Definition try_except {A} (body : M A) (handler : string -> M A) : M A := fun w =>
  match body w with
  | (Raised (cv2_error msg), w') => handler msg w'
  | other => other
  end.

(** [for x in xs: s = body(x, s)] *)
Fixpoint for_each {X S} (xs : list X) (body : X -> S -> M S) (s : S) : M S :=
  match xs with
  | [] => mret s
  | x :: xs' => s' ← body x s; for_each xs' body s'
  end.

(** [range(n)] *)
Definition range (n : Z) : list Z := seqZ 0 n.

(** *** Primitive statements *)

Definition print (line : string) : M unit := fun w =>
  (Normal tt, {| files := files w; stdout := stdout w ++ [line];
                 cap_calls := cap_calls w; position := position w;
                 progress := progress w |}).

Definition path_exists (path : string) : M bool := fun w =>
  (Normal (bool_decide (is_Some (files w !! path))), w).

Definition imwrite (path : string) (img : Image) : M unit := fun w =>
  (Normal tt, {| files := <[path := img]> (files w); stdout := stdout w;
                 cap_calls := cap_calls w; position := position w;
                 progress := progress w |}).

Definition call (c : CapCall) (w : World) : World :=
  {| files := files w; stdout := stdout w; cap_calls := cap_calls w ++ [c];
     position := match c with CapSet pos => pos | _ => position w end;
     progress := progress w |}.

(** [cap.set(cv2.CAP_PROP_POS_FRAMES, pos)] *)
Definition cap_set (pos : Z) : M unit := fun w => (Normal tt, call (CapSet pos) w).

(** [ret, frame = cap.read()] *)
Definition cap_read (cap : VideoCapture) : M (option Image) := fun w =>
  match read_at cap (position w) with
  | Ok (Some frame) => (Normal (Some frame), call (CapRead true) w)
  | Ok None => (Normal None, call (CapRead false) w)
  | Err e => (Raised e, w)
  end.

(** [cap.release()] *)
Definition cap_release : M unit := fun w => (Normal tt, call CapRelease w).

(** [pbar.update(n)] *)
Definition pbar_update (n : Z) : M unit := fun w =>
  (Normal tt, {| files := files w; stdout := stdout w;
                 cap_calls := cap_calls w; position := position w;
                 progress := progress w + n |}).

(** *** [check_frame_dimensions] (lines 8-11) *)

Definition check_frame_dimensions (frames : list Image) : bool :=
  let frame_dimensions : gset (Z * Z * Z) := list_to_set (shape <$> frames) in
  bool_decide (size frame_dimensions = 1%nat).

(** *** [save_black_image] (lines 139-145) *)

Definition save_black_image (output_folder video_name : string) : M unit :=
  let black_image := zeros (1, 1, 3) in
  let thumbnail_path := Path.join output_folder (video_name +:+ "_thumbnail.png") in
  imwrite thumbnail_path black_image.

(** *** [create_thumbnail_grid] (lines 13-137) *)

Definition timestamp_style : TextStyle :=
  {| org := (10, 20); fontFace := "FONT_HERSHEY_SIMPLEX"; fontScale := 1 # 2;
     color := (255, 255, 255); thickness := 1; lineType := "LINE_AA" |}.

(** Lines 70-87: resize the frame read at [current_frame] and draw the
    timestamp on it. *)
Definition annotate (cap : VideoCapture) (fps : Q) (columns current_frame : Z)
    (frame : Image) : result Image :=
  match target_size (CAP_PROP_FRAME_WIDTH cap) columns (shape frame) with
  | Err e => Err e
  | Ok (target_width, target_height) =>
      match resize frame (target_width, target_height) with
      | Err e => Err e
      | Ok frame =>
          Ok (putText frame (timestamp_text current_frame fps) timestamp_style)
      end
  end.

(** Lines 62-93: the body of the inner loop, on
    [(row_frames, current_frame)]. *)
Definition sample_slot (cap : VideoCapture) (fps : Q) (columns frame_interval : Z)
    (st : list Image * Z) : M (list Image * Z) :=
  let '(row_frames, current_frame) := st in
  cap_set current_frame;;
  frame ← cap_read cap;
  row_frames ← match frame with
               | Some frame =>
                   frame ← eval (annotate cap fps columns current_frame frame);
                   mret (row_frames ++ [frame])
               | None => mret row_frames
               end;
  let current_frame := current_frame + frame_interval in
  pbar_update 1;;
  mret (row_frames, current_frame).

(** Lines 96-104: append the row image to [rows], or leave [rows] as it
    is. *)
Definition close_row (output_folder video_name : string)
    (rows row_frames : list Image) : M (list Image) :=
  try_except
    (if negb (bool_decide (row_frames = [])) && check_frame_dimensions row_frames
     then row ← eval (hconcat row_frames); mret (rows ++ [row])
     else mret rows)
    (fun e =>
       print ("Error during hconcat: " +:+ e);;
       save_black_image output_folder video_name;;
       return_).

(** Lines 60-93: the inner loop, from [row_frames = []]. *)
Definition sample_row_frames (cap : VideoCapture) (fps : Q)
    (columns frame_interval current_frame : Z) : M (list Image * Z) :=
  for_each (range columns) (fun _ => sample_slot cap fps columns frame_interval)
           ([], current_frame).

(** Lines 60-104: the body of the outer loop, on [(rows, current_frame)]. *)
Definition sample_row (cap : VideoCapture) (fps : Q) (columns frame_interval : Z)
    (output_folder video_name : string) (st : list Image * Z) : M (list Image * Z) :=
  let '(rows, current_frame) := st in
  '(row_frames, current_frame) ←
    sample_row_frames cap fps columns frame_interval current_frame;
  rows ← close_row output_folder video_name rows row_frames;
  mret (rows, current_frame).

(** Lines 55-104: both loops, from [rows = []] and [current_frame = 0]. *)
Definition sampling (cap : VideoCapture) (fps : Q) (columns rows_n frame_interval : Z)
    (output_folder video_name : string) : M (list Image * Z) :=
  for_each (range rows_n)
           (fun _ => sample_row cap fps columns frame_interval output_folder video_name)
           ([], 0).

(** The shapes met by [for frame in img]: one [(width, channels)] slice
    per line of the image. *)
Definition slice_shapes (img : Image) : list (Z * Z) :=
  let '(h, w, c) := shape img in replicate (Z.to_nat h) (w, c).

(** Lines 108-119: [grid_image], when one is made. *)
Definition stack_rows (output_folder video_name : string) (rows : list Image)
  : M (option Image) :=
  try_except
    (match rows with
     | [] => mret None
     | row0 :: _ =>
         let frame_dimensions : gset (Z * Z) := list_to_set (slice_shapes row0) in
         if bool_decide (size frame_dimensions = 1%nat)
         then grid_image ← eval (vconcat rows); mret (Some grid_image)
         else mret None
     end)
    (fun e =>
       print ("Error during vconcat: " +:+ e);;
       save_black_image output_folder video_name;;
       return_).

(** Lines 42-51: the grid and the frame interval, as
    [(columns, rows, frame_interval)]. *)
Definition video_length_minutes (fps : Q) (total_frames : Z) : Q :=
  let video_length_minutes := (inject_Z total_frames / (fps * 60))%Q in
  if Qle_bool 1 video_length_minutes then video_length_minutes else 1%Q.

Definition grid_plan (fps : Q) (total_frames : Z) : result (Z * Z * Z) :=
  match find_closest_numbers (video_length_minutes fps total_frames) with
  | Err e => Err e
  | Ok None => Err TypeError
  | Ok (Some (columns, rows_n)) =>
      if columns * rows_n =? 0 then Err ZeroDivisionError
      else Ok (columns, rows_n, Z.max 1 (total_frames / (columns * rows_n)))
  end.

(** Lines 106-129: stack the rows, release the capture, write the grid. *)
Definition finish (output_folder video_name : string) (rows : list Image) : M unit :=
  grid_image ← stack_rows output_folder video_name rows;
  cap_release;;
  match grid_image with
  | Some grid_image =>
      let thumbnail_path :=
        Path.join output_folder (video_name +:+ "_thumbnail.png") in
      imwrite thumbnail_path grid_image
  | None => print "Error: grid_image is empty"
  end.

(** Lines 32-129: the body of the outer [try]. *)
Definition grid_body (cap : VideoCapture) (video_path output_folder video_name : string)
  : M unit :=
  let fps := CAP_PROP_FPS cap in
  let total_frames := Py.int (CAP_PROP_FRAME_COUNT cap) in
  if Qeq_bool fps 0 || (total_frames =? 0) then
    print ("Error: FPS or total frames is zero for video: " +:+ video_path);;
    cap_release;;
    return_
  else
    '(columns, rows_n, frame_interval) ← eval (grid_plan fps total_frames);
    '(rows, _) ← sampling cap fps columns rows_n frame_interval output_folder video_name;
    finish output_folder video_name rows.

(** [cv2.VideoCapture] opens the file at a path; [disk] says what is
    there. *)
Definition create_thumbnail_grid (disk : string -> VideoCapture)
    (video_path output_folder : string) : M unit :=
  let video_name := fst (Path.splitext (Path.basename video_path)) in
  let thumbnail_path := Path.join output_folder (video_name +:+ "_thumbnail.png") in
  found ← path_exists thumbnail_path;
  if (found : bool) then
    print ("Thumbnail already exists for " +:+ video_path +:+ ". Skipping.");;
    return_
  else
    let cap := disk video_path in
    if negb (isOpened cap) then
      print ("Error opening video file: " +:+ video_path);;
      return_
    else
      try_except
        (grid_body cap video_path output_folder video_name)
        (fun e =>
           print ("OpenCV Error: " +:+ e);;
           print ("Skipping video: " +:+ video_path);;
           save_black_image output_folder video_name;;
           cap_release;;
           return_).

(** *** [process_videos_in_directory] (lines 161-180) *)

(** A call of a function as a statement: the [return] of the callee ends
    the call, not the caller. *)
Definition call_function {A} (f : M A) : M unit := fun w =>
  match f w with
  | (Normal _, w') => (Normal tt, w')
  | (Returned, w') => (Normal tt, w')
  | (Raised e, w') => (Raised e, w')
  end.

(** [normpath] is [os.path.normpath] and [listdir] is [os.listdir] on a
    directory that can be listed, both taken as given. *)
Definition process_videos_in_directory {lw : Lower} (normpath : string -> string)
    (listdir : string -> list string) (disk : string -> VideoCapture)
    (directory : string) : M unit :=
  let video_directory := normpath directory in
  let files := listdir video_directory in
  let video_files := video_files files in
  for_each video_files
    (fun video_file _ =>
       let video_path := Path.join video_directory video_file in
       let output_folder := video_directory in
       call_function (create_thumbnail_grid disk video_path output_folder);;
       print (video_path +:+ " finished"))
    tt.

End Pipeline.

(** ** A reference instance of the interface

    Images are kept as the expression that built them, so that what is
    written to disk can be inspected.  The three fallible calls follow
    OpenCV's checks: [resize] rejects a destination size with a side that
    is not positive, [hconcat] wants equal heights and channel counts,
    [vconcat] wants equal widths and channel counts. *)

Module OpenCV.

#[local] Set Warnings "-register-all".

Inductive Img :=
| Decoded (shape : Z * Z * Z) (index : Z)
| Zeros (shape : Z * Z * Z)
| Resized (src : Img) (dsize : Z * Z)
| Text (img : Img) (text : string) (style : TextStyle)
| HCat (imgs : list Img)
| VCat (imgs : list Img).

Fixpoint img_shape (img : Img) : Z * Z * Z :=
  match img with
  | Decoded s _ => s
  | Zeros s => s
  | Resized src dsize => (snd dsize, fst dsize, snd (img_shape src))
  | Text img _ _ => img_shape img
  | HCat imgs =>
      match imgs with
      | [] => (0, 0, 0)
      | first :: _ =>
          (fst (fst (img_shape first)),
           foldr (fun i acc => snd (fst (img_shape i)) + acc) 0 imgs,
           snd (img_shape first))
      end
  | VCat imgs =>
      match imgs with
      | [] => (0, 0, 0)
      | first :: _ =>
          (foldr (fun i acc => fst (fst (img_shape i)) + acc) 0 imgs,
           snd (fst (img_shape first)),
           snd (img_shape first))
      end
  end.

Definition height (img : Img) : Z := fst (fst (img_shape img)).
Definition width (img : Img) : Z := snd (fst (img_shape img)).
Definition channels (img : Img) : Z := snd (img_shape img).

Definition img_resize (src : Img) (dsize : Z * Z) : result Img :=
  if (0 <? fst dsize) && (0 <? snd dsize) && (0 <? height src) && (0 <? width src)
  then Ok (Resized src dsize)
  else Err (cv2_error "resize: empty size").

Definition same (f : Img -> Z) (imgs : list Img) : bool :=
  match imgs with
  | [] => true
  | first :: rest => forallb (fun i => f i =? f first) rest
  end.

Definition img_hconcat (imgs : list Img) : result Img :=
  if same height imgs && same channels imgs
  then Ok (HCat imgs)
  else Err (cv2_error "hconcat: rows or type differ").

Definition img_vconcat (imgs : list Img) : result Img :=
  if same width imgs && same channels imgs
  then Ok (VCat imgs)
  else Err (cv2_error "vconcat: cols or type differ").

#[global] Instance cv : Cv2 := {|
  Image := Img;
  shape := img_shape;
  zeros := Zeros;
  resize := img_resize;
  putText := Text;
  hconcat := img_hconcat;
  vconcat := img_vconcat
|}.

(** A world with an empty folder and nothing done yet. *)
Definition fresh : World :=
  {| files := ∅; stdout := []; cap_calls := []; position := 0; progress := 0 |}.

(** A capture of [total] frames at [fps] frames per second, [w] pixels
    wide, whose frames are given by [frames]. *)
Definition video (fps total w : Z) (frames : Z -> result (option Img)) : VideoCapture :=
  {| isOpened := true;
     CAP_PROP_FPS := inject_Z fps;
     CAP_PROP_FRAME_COUNT := inject_Z total;
     CAP_PROP_FRAME_WIDTH := inject_Z w;
     read_at := frames |}.

End OpenCV.

(** ** Vocabulary of the statements *)

(** The frame indices passed to [cap.set], in order. *)
Definition seeks (calls : list CapCall) : list Z :=
  omap (fun c => match c with CapSet pos => Some pos | _ => None end) calls.

(** The outcomes of [cap.read], in order. *)
Definition reads (calls : list CapCall) : list bool :=
  omap (fun c => match c with CapRead ret => Some ret | _ => None end) calls.

(** Was [cap.release()] called? *)
Definition released (calls : list CapCall) : bool :=
  bool_decide (CapRelease ∈ calls).

(** The path of the thumbnail of a video. *)
Definition thumbnail_of (video_path output_folder : string) : string :=
  Path.join output_folder
    (fst (Path.splitext (Path.basename video_path)) +:+ "_thumbnail.png").

(** [|i - j|] for the candidate [i] of the grid search. *)
Definition gap (target : Q) (i : Z) : Z := Z.abs (i - partner target i).

Definition pair_of (target : Q) (i : Z) : Z * Z :=
  (Z.max i (partner target i), Z.min i (partner target i)).

(** What the grid search has found after a non-empty run over [l]: the
    candidate at some position [n], whose gap is minimal over [l] and
    strictly smaller than every gap met before position [n]. *)
Definition first_best (target : Q) (l : list Z) (st : sizer_state) : Prop :=
  exists (n : nat) (i : Z),
    l !! n = Some i /\
    st = (Some (pair_of target i), Fin (gap target i)) /\
    (forall i', i' ∈ l -> gap target i <= gap target i') /\
    (forall (m : nat) i', (m < n)%nat -> l !! m = Some i' ->
       gap target i < gap target i').

(** *** The annotator as the specification words it

    Target height as [round(target width / aspect ratio)], and the text as
    the time [current_frame / frameRate] in the form [H:MM:SS.mmm]. *)


Definition spec_timestamp_text (current_frame : Z) (fps : Q) : string :=
  let time := (inject_Z current_frame / fps)%Q in
  let whole := Qfloor time in
  let millis := Qfloor ((time - inject_Z whole) * 1000) in
  Str.of_Z (whole / 3600) +:+ ":" +:+ Str.zfill 2 (Str.of_Z (whole / 60 mod 60))
  +:+ ":" +:+ Str.zfill 2 (Str.of_Z (whole mod 60))
  +:+ "." +:+ Str.zfill 3 (Str.of_Z millis).

Section SamplingVocabulary.
Context `{cv : Cv2}.

(** [n] frame indices from [start], [frame_interval] apart. *)
Fixpoint positions (frame_interval start : Z) (n : nat) : list Z :=
  match n with
  | O => []
  | S n' => start :: positions frame_interval (start + frame_interval) n'
  end.

(** Does the read at [pos] give a frame? *)
Definition ret_at (cap : VideoCapture) (pos : Z) : bool :=
  match read_at cap pos with
  | Ok (Some _) => true
  | _ => false
  end.

(** The calls of one sample attempt per position: a seek, then a read. *)
Definition slot_calls (cap : VideoCapture) (ps : list Z) : list CapCall :=
  flat_map (fun pos => [CapSet pos; CapRead (ret_at cap pos)]) ps.

(** The annotated frame of the slot at [pos], when the read gives one. *)
Definition emit (cap : VideoCapture) (fps : Q) (columns pos : Z) : option Image :=
  match read_at cap pos with
  | Ok (Some frame) =>
      match annotate cap fps columns pos frame with
      | Ok frame => Some frame
      | Err _ => None
      end
  | _ => None
  end.

(** Does the sample attempt at [pos] raise (in the read, the resize or a
    division)? *)
Definition slot_raises (cap : VideoCapture) (fps : Q) (columns pos : Z) : bool :=
  match read_at cap pos with
  | Ok (Some frame) =>
      match annotate cap fps columns pos frame with
      | Ok _ => false
      | Err _ => true
      end
  | Ok None => false
  | Err _ => true
  end.

(** [hconcat] accepts every row that passes the guard of line 97. *)
Definition hconcat_accepts_guarded : Prop :=
  forall frames : list Image,
    frames <> [] -> check_frame_dimensions frames = true ->
    exists row, hconcat frames = Ok row.

(** The guard of lines 109-112: there is a row, and the first row image
    has at least one line. *)
Definition stackable (rows : list Image) : bool :=
  match rows with
  | [] => false
  | row0 :: _ =>
      bool_decide (size (list_to_set (slice_shapes row0) : gset (Z * Z)) = 1%nat)
  end.

(** The world differs from an earlier one by calls on the capture other
    than a release. *)
Definition only_sampled (w w' : World) : Prop :=
  exists calls, cap_calls w' = cap_calls w ++ calls /\ CapRelease ∉ calls.

End SamplingVocabulary.

(** ** Example videos *)

Module Videos.
Import OpenCV.


(** 30 fps, 900 frames, no frame can be read. *)
Definition unreadable : VideoCapture :=
  video 30 900 640 (fun _ => Ok None).

(** 30 fps, 7200 frames (4 minutes), 800 pixels wide: a grid of 2 by 2,
    one sample every 1800 frames. The frames of the second half are 203
    lines high, those of the first half 200: the two row images are
    800 pixels wide, 100 and 101 lines high. *)
Definition tall_second_row : VideoCapture :=
  video 30 7200 800
    (fun n => Ok (Some (Decoded (if n <? 3600 then 200 else 203, 800, 3) n))).

(** The same grid; the read of the last slot (frame 5400) fails, so the
    second row image is half as wide as the first. *)
Definition short_last_row : VideoCapture :=
  video 30 7200 800
    (fun n => if n =? 5400 then Ok None else Ok (Some (Decoded (200, 800, 3) n))).

(** The same grid, every frame 800x200. *)
Definition clean : VideoCapture :=
  video 30 7200 800 (fun n => Ok (Some (Decoded (200, 800, 3) n))).

(** The same grid; the read of the last slot raises. *)
Definition broken_read : VideoCapture :=
  video 30 7200 800
    (fun n => if n =? 5400 then Err (cv2_error "read")
              else Ok (Some (Decoded (200, 800, 3) n))).

(** 30 fps, 900 frames (half a minute), every frame 640x480. *)
Definition half_minute : VideoCapture :=
  video 30 900 640 (fun n => Ok (Some (Decoded (480, 640, 3) n))).

(** The run of the pipeline on [cap], stored as [/videos/clip.mp4], in a
    fresh world. *)
Definition run (cap : VideoCapture) : Flow unit * World :=
  create_thumbnail_grid (fun _ => cap) "/videos/clip.mp4" "/videos" fresh.

Definition thumbnail : string := "/videos/clip_thumbnail.png".

(** A file that cannot be opened as a video, and a video that reports a
    frame rate of zero. *)
Definition closed : VideoCapture :=
  {| isOpened := false; CAP_PROP_FPS := 0; CAP_PROP_FRAME_COUNT := 0;
     CAP_PROP_FRAME_WIDTH := 0; read_at := fun _ => Ok None |}.

Definition no_rate : VideoCapture :=
  video 0 900 640 (fun n => Ok (Some (Decoded (480, 640, 3) n))).

(** The world after the run on [clean]: its thumbnail is on disk. *)
Definition after_clean : World := snd (run clean).

(** A directory [/videos] with three files, each a [half_minute] video;
    the names are ASCII. *)
Definition listing (directory : string) : list string :=
  if String.eqb directory "/videos" then ["movie.MKV"; "movie.txt"; "clip.m4v"]
  else [].

Definition walk : Flow unit * World :=
  process_videos_in_directory (lw := ascii_lower) (fun p => p) listing
                              (fun _ => half_minute) "/videos" fresh.

(** The frame read at [pos], [h] lines by [w] pixels, resized to [size]
    and stamped with [text]. *)
Definition stamped (pos h w : Z) (size : Z * Z) (text : string) : Img :=
  Text (Resized (Decoded (h, w, 3) pos) size) text timestamp_style.

End Videos.

(** ** IEEE binary64

    The development reads floats as exact rationals. This module computes
    the same quotients the way Python does, with one rounding to binary64
    per operation: the height of the resized frame, which the two
    roundings can bring one below the exact quotient, and the values used
    in the examples, to compare them with the rational model. *)

Module Binary64.

Definition prec : Z := 53.
Definition emax : Z := 1024.

(** [float(z)] *)
Definition of_int (z : Z) : spec_float := binary_normalize prec emax z 0 false.

Definition div (x y : spec_float) : spec_float := SFdiv prec emax x y.
Definition mul (x y : spec_float) : spec_float := SFmul prec emax x y.
Definition sqrt (x : spec_float) : spec_float := SFsqrt prec emax x.

(** The exact value of a finite float. *)
Definition to_Q (x : spec_float) : option Q :=
  match x with
  | S754_zero _ => Some 0%Q
  | S754_finite s m e =>
      let v := if 0 <=? e then inject_Z (Zpos m * 2 ^ e)
               else (Zpos m # Pos.pow 2 (Z.to_pos (- e))) in
      Some (if s then Qopp v else v)
  | _ => None
  end.

(** [int(x)] and [round(x)] *)
Definition to_int (x : spec_float) : option Z := Py.int <$> to_Q x.
Definition round (x : spec_float) : option Z := Py.round <$> to_Q x.

(** Line 71 and the quotient of line 75: [target_width / (w / h)], each
    division rounded to binary64. *)
Definition height_quotient (target_width w h : Z) : spec_float :=
  div (of_int target_width) (div (of_int w) (of_int h)).

(** Lines 71 and 75: [int(target_width / (w / h))]; [None] when the
    quotient is infinite or not a number, where [int] raises. *)
Definition target_height (target_width w h : Z) : option Z :=
  to_int (height_quotient target_width w h).


(** Line 43 for an integral frame rate: [total_frames / (fps * 60)]. *)
Definition video_length (total_frames fps : Z) : spec_float :=
  div (of_int total_frames) (mul (of_int fps) (of_int 60)).

End Binary64.

(** ** The ways a run of the pipeline ends *)

Section Endings.
Context `{cv : Cv2}.

(** One constructor per exit of [create_thumbnail_grid]: the three early
    [return]s (lines 21, 29 and 40), the two ends of the normal path
    (lines 127 and 129), the three handlers (lines 104, 119 and 137), and
    an exception that no handler catches. *)
Inductive Ending :=
| SkippedExisting
| OpenFailed
| ZeroMetadata
| Persisted (grid_image : Image)
| EmptyGrid
| HconcatFailed (msg : string)
| VconcatFailed (msg : string)
| LibraryFailed (msg : string)
| Escaped (e : Exc).

Definition ending_flow (e : Ending) : Flow unit :=
  match e with
  | Persisted _ | EmptyGrid => Normal tt
  | Escaped e => Raised e
  | _ => Returned
  end.

(** The image written to the thumbnail path, if any. *)
Definition ending_image (e : Ending) : option Image :=
  match e with
  | Persisted grid_image => Some grid_image
  | HconcatFailed _ | VconcatFailed _ | LibraryFailed _ => Some (zeros (1, 1, 3))
  | _ => None
  end.

(** The lines printed. *)
Definition ending_lines (video_path : string) (e : Ending) : list string :=
  match e with
  | SkippedExisting =>
      ["Thumbnail already exists for " +:+ video_path +:+ ". Skipping."]
  | OpenFailed => ["Error opening video file: " +:+ video_path]
  | ZeroMetadata =>
      ["Error: FPS or total frames is zero for video: " +:+ video_path]
  | Persisted _ => []
  | EmptyGrid => ["Error: grid_image is empty"]
  | HconcatFailed msg => ["Error during hconcat: " +:+ msg]
  | VconcatFailed msg => ["Error during vconcat: " +:+ msg]
  | LibraryFailed msg =>
      ["OpenCV Error: " +:+ msg; "Skipping video: " +:+ video_path]
  | Escaped _ => []
  end.

(** Is [cap.release()] called? *)
Definition ending_releases (e : Ending) : bool :=
  match e with
  | ZeroMetadata | Persisted _ | EmptyGrid | LibraryFailed _ => true
  | _ => false
  end.

(** Is the sampling loop entered? *)
Definition ending_samples (e : Ending) : bool :=
  match e with
  | SkippedExisting | OpenFailed | ZeroMetadata => false
  | _ => true
  end.

(** The run [(flow, w')] from the world [w] ends by [e]: the flow, the
    folder, the console and the calls on the capture are those of [e];
    the calls are seeks and reads, followed by the release when [e] has
    one. *)
Definition ends (video_path thumbnail_path : string) (w : World)
    (run : Flow unit * World) (e : Ending) : Prop :=
  fst run = ending_flow e /\
  files (snd run) =
    match ending_image e with
    | Some img => <[thumbnail_path := img]> (files w)
    | None => files w
    end /\
  stdout (snd run) = stdout w ++ ending_lines video_path e /\
  exists sampled,
    (CapRelease ∉ sampled) /\
    (ending_samples e = false -> sampled = []) /\
    cap_calls (snd run)
    = cap_calls w ++ (sampled ++ (if ending_releases e then [CapRelease] else [])).

(** Which ending the checks of lines 19, 27 and 37 select. *)
Definition early_ending (w : World) (cap : VideoCapture) (thumbnail_path : string)
  : option Ending :=
  if bool_decide (is_Some (files w !! thumbnail_path)) then Some SkippedExisting
  else if negb (isOpened cap) then Some OpenFailed
  else if Qeq_bool (CAP_PROP_FPS cap) 0 || (Py.int (CAP_PROP_FRAME_COUNT cap) =? 0)
       then Some ZeroMetadata
  else None.

End Endings.

(** ** Vocabulary of the assembled grid *)

Section RowVocabulary.
Context `{cv : Cv2}.



End RowVocabulary.

(** The contact sheet of the reference instance: [rows_n] rows of
    [columns] cells, the cell of the slot at [pos] being the frame read
    there, resized to [size] and stamped with the text for [pos]. *)
Module Sheet.
Import OpenCV.

Definition cell (frame : Z -> Img) (fps : Q) (size : Z * Z) (pos : Z) : Img :=
  Text (Resized (frame pos) size) (timestamp_text pos fps) timestamp_style.

Definition row (frame : Z -> Img) (fps : Q) (size : Z * Z)
    (columns frame_interval start : Z) : Img :=
  HCat (cell frame fps size <$> positions frame_interval start (Z.to_nat columns)).


End Sheet.

(** * Theorems *)

(** ** Facts about the number model *)

Section NumberFacts.

Lemma round_floor (x : Q) : Qfloor x <= Py.round x <= Qfloor x + 1.
Proof.
  unfold Py.round.
  destruct (Qcompare _ _); [destruct (Z.even _) | |]; lia.
Qed.

Lemma floor_bounds (x : Q) :
  (inject_Z (Qfloor x) <= x)%Q /\ (x < inject_Z (Qfloor x) + 1)%Q.
Proof.
  split; [apply Qfloor_le |].
  pose proof (Qlt_floor x) as H.
  rewrite inject_Z_plus in H. exact H.
Qed.

(** [round] is within one half of its argument. *)
Lemma round_near (x : Q) :
  (inject_Z (Py.round x) - (1 # 2) <= x)%Q /\
  (x <= inject_Z (Py.round x) + (1 # 2))%Q.
Proof.
  destruct (floor_bounds x) as [Hlo Hhi].
  unfold Py.round.
  destruct (Qcompare_spec (x - inject_Z (Qfloor x)) (1 # 2)) as [He | Hl | Hg].
  - destruct (Z.even (Qfloor x)).
    + split; lra.
    + rewrite inject_Z_plus. change (inject_Z 1) with 1%Q. split; lra.
  - split; lra.
  - rewrite inject_Z_plus. change (inject_Z 1) with 1%Q. split; lra.
Qed.

Lemma floor_nonneg (x : Q) : (0 <= x)%Q -> 0 <= Qfloor x.
Proof. intros Hx. change 0 with (Qfloor 0). now apply Qfloor_resp_le. Qed.

Lemma round_ge_1 (x : Q) : (1 <= x)%Q -> 1 <= Py.round x.
Proof.
  intros Hx. pose proof (round_floor x) as [H _].
  assert (1 <= Qfloor x); [| lia].
  change 1 with (Qfloor 1). now apply Qfloor_resp_le.
Qed.

(** Only arguments up to one half round to zero or below. *)
Lemma round_le_0 (x : Q) : Py.round x <= 0 -> (x <= 1 # 2)%Q.
Proof.
  intros H. pose proof (round_near x) as [_ Hhi].
  assert (inject_Z (Py.round x) <= 0)%Q.
  { change 0%Q with (inject_Z 0). now rewrite <- Zle_Qle. }
  lra.
Qed.

(** Arguments from zero up to one half round to zero. *)
Lemma round_small (x : Q) : (0 <= x)%Q -> (x <= 1 # 2)%Q -> Py.round x = 0.
Proof.
  intros H0 Hh.
  assert (Hf : Qfloor x = 0).
  { pose proof (floor_nonneg x H0). destruct (floor_bounds x) as [Hlo _].
    assert (inject_Z (Qfloor x) < inject_Z 1)%Q as Hlt.
    { change (inject_Z 1) with 1%Q. lra. }
    rewrite <- Zlt_Qlt in Hlt. lia. }
  unfold Py.round. rewrite Hf.
  change (inject_Z 0) with 0%Q.
  destruct (Qcompare_spec (x - 0) (1 # 2)); [reflexivity | reflexivity | lra].
Qed.

(** [isqrt] is the floor of the square root. *)
Lemma isqrt_spec (x : Q) :
  (0 <= x)%Q ->
  0 <= isqrt x /\
  (inject_Z (isqrt x * isqrt x) <= x)%Q /\
  (x < inject_Z ((isqrt x + 1) * (isqrt x + 1)))%Q.
Proof.
  intros Hx.
  pose proof (Z.sqrt_spec (Qfloor x) (floor_nonneg x Hx)) as [Hlo Hhi].
  fold (isqrt x) in Hlo, Hhi.
  destruct (floor_bounds x) as [Hfl Hfu].
  split; [apply Z.sqrt_nonneg |]. split.
  - apply Qle_trans with (inject_Z (Qfloor x)); [| exact Hfl].
    rewrite <- Zle_Qle. exact Hlo.
  - apply Qlt_le_trans with (inject_Z (Qfloor x) + 1)%Q; [exact Hfu |].
    change 1%Q with (inject_Z 1). rewrite <- inject_Z_plus, <- Zle_Qle.
    unfold Z.succ in Hhi. lia.
Qed.

End NumberFacts.

(** ** GridSizer *)

Example find_closest_numbers_9 : find_closest_numbers 9 = Ok (Some (3, 3)).
Proof. reflexivity. Qed.

Example find_closest_numbers_6 : find_closest_numbers 6 = Ok (Some (3, 2)).
Proof. reflexivity. Qed.

Example find_closest_numbers_10 : find_closest_numbers 10 = Ok (Some (3, 3)).
Proof. reflexivity. Qed.

Section Sizer.
Variable target : Q.

Lemma closest_step_first (i : Z) :
  closest_step target (None, Inf) i = (Some (pair_of target i), Fin (gap target i)).
Proof. reflexivity. Qed.

Lemma closest_step_later (p : Z * Z) (d i : Z) :
  closest_step target (Some p, Fin d) i =
  if gap target i <? d then (Some (pair_of target i), Fin (gap target i))
  else (Some p, Fin d).
Proof. reflexivity. Qed.

Lemma loop_first_best (l : list Z) :
  l <> [] -> first_best target l (foldl (closest_step target) (None, Inf) l).
Proof.
  induction l as [| x l IH] using rev_ind; [congruence |]. intros _.
  rewrite foldl_app. cbn [foldl].
  destruct l as [| y l'].
  - cbn [foldl]. rewrite closest_step_first.
    exists 0%nat, x. split; [reflexivity |]. split; [reflexivity |]. split.
    + intros i' Hi'. apply list_elem_of_singleton in Hi'. subst. lia.
    + intros m i' Hm. lia.
  - destruct IH as (n & i & Hn & -> & Hmin & Hfirst); [congruence |].
    set (l := y :: l') in *.
    rewrite closest_step_later.
    destruct (Z.ltb_spec (gap target x) (gap target i)) as [Hlt | Hge].
    + exists (length l), x. split.
      { rewrite lookup_app_r by lia. now rewrite Nat.sub_diag. }
      split; [reflexivity |]. split.
      * intros i' Hi'. apply elem_of_app in Hi' as [Hi' | Hi'].
        -- specialize (Hmin i' Hi'). lia.
        -- apply list_elem_of_singleton in Hi'. subst. lia.
      * intros m i' Hm Hi'. rewrite lookup_app_l in Hi' by lia.
        assert (i' ∈ l) as Hin by (eapply list_elem_of_lookup_2; eauto).
        specialize (Hmin i' Hin). lia.
    + exists n, i. split.
      { rewrite lookup_app_l; [exact Hn |]. eapply lookup_lt_Some; eauto. }
      split; [reflexivity |]. split.
      * intros i' Hi'. apply elem_of_app in Hi' as [Hi' | Hi'].
        -- now apply Hmin.
        -- apply list_elem_of_singleton in Hi'. subst. lia.
      * intros m i' Hm Hi'.
        assert (n < length l)%nat by (eapply lookup_lt_Some; eauto).
        rewrite lookup_app_l in Hi' by lia. eapply Hfirst; eauto.
Qed.

End Sizer.

Lemma round_comp (x y : Q) : (x == y)%Q -> Py.round x = Py.round y.
Proof.
  intros E. unfold Py.round.
  rewrite (Qfloor_comp x y E).
  assert (Qcompare (x - inject_Z (Qfloor y)) (1 # 2)
          = Qcompare (y - inject_Z (Qfloor y)) (1 # 2)) as ->; [| reflexivity].
  now rewrite E.
Qed.

Lemma partner_1 (d : Q) : partner d 1 = Py.round d.
Proof. unfold partner. apply round_comp. change (inject_Z 1) with 1%Q. field. Qed.

(** A candidate whose partner is zero or less lies at twice the target or
    further. *)
Lemma partner_le_0 (d : Q) (i : Z) :
  1 <= i -> partner d i <= 0 -> (d <= inject_Z i * (1 # 2))%Q.
Proof.
  intros Hi Hj. apply round_le_0 in Hj.
  assert (0 < inject_Z i)%Q as Hpos.
  { change 0%Q with (inject_Z 0). rewrite <- Zlt_Qlt. lia. }
  assert (d == d / inject_Z i * inject_Z i)%Q as E by (field; lra).
  rewrite E. rewrite (Qmult_comm (inject_Z i)).
  apply Qmult_le_compat_r; [exact Hj | lra].
Qed.

(** For a target of at least one, the candidate the loop keeps has a
    partner of at least one. *)
Lemma best_partner_positive (d : Q) (i : Z) :
  (1 <= d)%Q -> 1 <= i ->
  Z.abs (i - partner d i) <= Z.abs (1 - partner d 1) ->
  1 <= partner d i.
Proof.
  intros Hd Hi Hgap.
  destruct (Z_lt_le_dec (partner d i) 1) as [Hj | Hj]; [| exact Hj].
  exfalso.
  pose proof (partner_le_0 d i Hi ltac:(lia)) as Hfar.
  rewrite partner_1 in Hgap.
  pose proof (round_ge_1 d Hd) as Hr1.
  pose proof (round_near d) as [Hlo _].
  assert (inject_Z (Py.round d) <= inject_Z i * (1 # 2) + (1 # 2))%Q as Hq by lra.
  assert (inject_Z i <= inject_Z (Py.round d) - 1)%Q as Hq'.
  { assert (inject_Z i + inject_Z 1 <= inject_Z (Py.round d))%Q as Hs.
    { rewrite <- inject_Z_plus, <- Zle_Qle. lia. }
    change (inject_Z 1) with 1%Q in Hs. lra. }
  assert (0 < inject_Z i)%Q.
  { change 0%Q with (inject_Z 0). rewrite <- Zlt_Qlt. lia. }
  lra.
Qed.

(** C5. For every duration [d >= 1], [find_closest_numbers d] returns
    [(max i j, min i j)] for some [i] of the search range
    [1 .. floor(sqrt d) + 1] with [j = round (d / i)]; the pair has
    [columns >= rows >= 1]; [|i - j|] is minimal over the range; and every
    smaller [i] has a strictly larger [|i - j|], so a tie goes to the
    candidate found first. ([isqrt d] is the floor of the square root of
    [d].) *)
Theorem grid_search_first_closest (d : Q) :
  (1 <= d)%Q ->
  (inject_Z (isqrt d * isqrt d) <= d < inject_Z ((isqrt d + 1) * (isqrt d + 1)))%Q /\
  exists i j : Z,
    1 <= i <= isqrt d + 1 /\
    j = Py.round (d / inject_Z i) /\
    find_closest_numbers d = Ok (Some (Z.max i j, Z.min i j)) /\
    1 <= Z.min i j <= Z.max i j /\
    (forall i', 1 <= i' <= isqrt d + 1 ->
       Z.abs (i - j) <= Z.abs (i' - Py.round (d / inject_Z i'))) /\
    (forall i', 1 <= i' < i ->
       Z.abs (i - j) < Z.abs (i' - Py.round (d / inject_Z i'))).
Proof.
  intros Hd.
  assert (0 <= d)%Q as Hd0 by lra.
  pose proof (isqrt_spec d Hd0) as (Hk & Hlo & Hhi).
  split; [split; assumption |].
  assert (sizer_range d <> []) as Hne.
  { unfold sizer_range. rewrite seqZ_cons by lia. discriminate. }
  destruct (loop_first_best d (sizer_range d) Hne)
    as (n & i & Hn & Hst & Hmin & Hfirst).
  unfold sizer_range in Hn, Hmin, Hfirst.
  apply lookup_seqZ in Hn as [Hi Hnlt].
  assert (forall i', 1 <= i' <= isqrt d + 1 -> gap d i <= gap d i') as Hmin'.
  { intros i' Hi'. apply Hmin. apply elem_of_seqZ. lia. }
  exists i, (partner d i).
  split; [lia |]. split; [reflexivity |]. split.
  { unfold find_closest_numbers.
    assert (Qle_bool 0 d = true) as -> by now apply Qle_bool_iff.
    now rewrite Hst. }
  split.
  { assert (1 <= partner d i); [| lia].
    apply best_partner_positive; [exact Hd | lia |].
    apply (Hmin' 1). lia. }
  split; [exact Hmin' |].
  intros i' Hi'.
  apply (Hfirst (Z.to_nat (i' - 1))); [lia |].
  rewrite lookup_seqZ_lt by lia. f_equal. lia.
Qed.

Lemma grid_search_first_closest_witness :
  (1 <= 6)%Q /\
  (inject_Z (isqrt 6 * isqrt 6) <= 6 < inject_Z ((isqrt 6 + 1) * (isqrt 6 + 1)))%Q /\
  exists i j : Z,
    1 <= i <= isqrt 6 + 1 /\
    j = Py.round (6 / inject_Z i) /\
    find_closest_numbers 6 = Ok (Some (Z.max i j, Z.min i j)) /\
    1 <= Z.min i j <= Z.max i j /\
    (forall i', 1 <= i' <= isqrt 6 + 1 ->
       Z.abs (i - j) <= Z.abs (i' - Py.round (6 / inject_Z i'))) /\
    (forall i', 1 <= i' < i ->
       Z.abs (i - j) < Z.abs (i' - Py.round (6 / inject_Z i'))).
Proof.
  assert (1 <= 6)%Q as H by (unfold Qle; simpl; lia).
  split; [exact H | exact (grid_search_first_closest 6 H)].
Defined.

(** Every target in [(0, 1/2]] gives the grid [(1, 0)]. *)
Lemma sizer_small_target (target : Q) :
  (0 < target)%Q -> (target <= 1 # 2)%Q ->
  find_closest_numbers target = Ok (Some (1, 0)).
Proof.
  intros H0 Hh.
  unfold find_closest_numbers.
  assert (Qle_bool 0 target = true) as -> by (apply Qle_bool_iff; lra).
  assert (isqrt target = 0) as Hk.
  { unfold isqrt.
    assert (Qfloor target = 0) as ->; [| reflexivity].
    pose proof (floor_nonneg target ltac:(lra)).
    destruct (floor_bounds target) as [Hlo _].
    assert (inject_Z (Qfloor target) < inject_Z 1)%Q as Hlt.
    { change (inject_Z 1) with 1%Q. lra. }
    rewrite <- Zlt_Qlt in Hlt. lia. }
  unfold sizer_range. rewrite Hk. change (seqZ 1 (0 + 1)) with [1].
  cbn [foldl]. rewrite closest_step_first. cbn [fst]. unfold pair_of.
  rewrite partner_1, (round_small target) by lra. reflexivity.
Qed.

(** C10. Below the caller's clamp the sizer can return zero rows: there is
    a target in [(0, 1/2]], namely [2/5], for which
    [find_closest_numbers] returns a pair whose second component is 0. *)
Theorem sizer_zero_rows_below_clamp :
  exists target : Q,
    (0 < target)%Q /\ (target <= 1 # 2)%Q /\
    exists columns, find_closest_numbers target = Ok (Some (columns, 0)).
Proof.
  exists (2 # 5). split; [reflexivity |]. split; [unfold Qle; simpl; lia |].
  exists 1. reflexivity.
Qed.

(** ** DirectoryWalker: the file filter *)

Section StringFacts.

Lemma chars_app (s t : string) : Str.chars (s +:+ t) = Str.chars s ++ Str.chars t.
Proof.
  induction s as [| c s IH]; [reflexivity |].
  unfold Str.chars in *. change (String c s +:+ t) with (String c (s +:+ t)).
  cbn [String.list_ascii_of_string]. now rewrite IH.
Qed.

Lemma chars_inj (s t : string) : Str.chars s = Str.chars t -> s = t.
Proof.
  intros E. rewrite <- (String.string_of_list_ascii_of_string s).
  rewrite <- (String.string_of_list_ascii_of_string t).
  unfold Str.chars in E. now rewrite E.
Qed.

(** [s.endswith(suffix)] holds exactly when [s] is some stem followed by
    [suffix]. *)
Lemma endswith_spec (s suffix : string) :
  Str.endswith s suffix = true <-> exists stem, s = stem +:+ suffix.
Proof.
  unfold Str.endswith. rewrite bool_decide_eq_true. split.
  - intros [k Hk]. exists (String.string_of_list_ascii k).
    apply chars_inj. rewrite chars_app, Hk. f_equal.
    unfold Str.chars. now rewrite String.list_ascii_of_string_of_list_ascii.
  - intros [stem ->]. exists (Str.chars stem). apply chars_app.
Qed.

Lemma endswith_any_spec (s : string) (suffixes : list string) :
  Str.endswith_any s suffixes = true <->
  exists suffix stem, suffix ∈ suffixes /\ s = stem +:+ suffix.
Proof.
  unfold Str.endswith_any. rewrite existsb_exists. split.
  - intros (suffix & Hin & He). apply endswith_spec in He as [stem ->].
    exists suffix, stem. split; [now apply list_elem_of_In | reflexivity].
  - intros (suffix & stem & Hin & ->). exists suffix.
    split; [now apply list_elem_of_In |]. apply endswith_spec. now exists stem.
Qed.

Lemma lower_app (s t : string) : Str.lower (s +:+ t) = Str.lower s +:+ Str.lower t.
Proof.
  induction s as [| c s IH]; [reflexivity |].
  change (String c s +:+ t) with (String c (s +:+ t)).
  cbn [Str.lower]. rewrite IH. reflexivity.
Qed.

End StringFacts.

Section FilterFacts.
Context {lw : Lower}.

(** A name that ends with an ASCII spelling of a suffix, in capitals or
    not, is a video file. *)
Lemma suffix_spelling_is_video (stem t : string) :
  Str.isascii t = true -> Str.lower t ∈ video_suffixes ->
  is_video_file (stem +:+ t) = true.
Proof.
  intros Hascii Hin. unfold is_video_file. apply endswith_any_spec.
  destruct (lower_keeps_ascii_suffix stem t Hascii) as [s' Hs'].
  exists (Str.lower t), s'. split; [exact Hin | exact Hs'].
Qed.

(** C9. The filter keeps, in the order of the listing, exactly the files
    whose lowercased name ends in one of [.mp4], [.avi], [.mkv], [.mov]
    or [m4v]; the last pattern has no leading dot.  The match does not
    depend on the case: a name that ends with a suffix spelled in ASCII
    letters of either case is kept.  [movie.MKV] is kept, [movie.txt] is
    dropped, [clip.m4v] is kept, and so is every name that merely ends in
    [m4v]. *)
Theorem filter_keeps_video_suffixes :
  video_suffixes = [".mp4"; ".avi"; ".mkv"; ".mov"; "m4v"] /\
  (forall (files : list string) (file : string),
     file ∈ video_files files <->
     file ∈ files /\
     exists suffix stem,
       suffix ∈ video_suffixes /\ lower file = stem +:+ suffix) /\
  (forall files, video_files files `sublist_of` files) /\
  (forall stem t,
     Str.isascii t = true -> Str.lower t ∈ video_suffixes ->
     is_video_file (stem +:+ t) = true) /\
  video_files ["movie.MKV"; "movie.txt"; "clip.m4v"] = ["movie.MKV"; "clip.m4v"] /\
  (forall stem, is_video_file (stem +:+ "m4v") = true) /\
  is_video_file "homem4v" = true.
Proof.
  split; [reflexivity |]. split.
  { intros files file. unfold video_files.
    rewrite list_elem_of_In, filter_In, <- list_elem_of_In.
    unfold is_video_file. now rewrite endswith_any_spec. }
  split.
  { intros files. unfold video_files.
    induction files as [| f files IH]; [constructor |].
    cbn [List.filter].
    destruct (is_video_file f); [apply sublist_skip | apply sublist_cons]; exact IH. }
  split; [exact suffix_spelling_is_video |].
  split.
  { unfold video_files, is_video_file. cbn [List.filter].
    rewrite !lower_on_ascii by reflexivity. reflexivity. }
  split.
  { intros stem. apply suffix_spelling_is_video; [reflexivity |].
    unfold video_suffixes. set_solver. }
  unfold is_video_file. rewrite lower_on_ascii by reflexivity. reflexivity.
Qed.

End FilterFacts.

(** The walk over a directory with [movie.MKV], [movie.txt] and
    [clip.m4v]: thumbnails are written for the first and the last, and
    for nothing else. *)
Lemma walk_skips_other_files :
  fst Videos.walk = Normal tt /\
  dom (files (snd Videos.walk))
  = {["/videos/movie_thumbnail.png"; "/videos/clip_thumbnail.png"]} /\
  stdout (snd Videos.walk)
  = ["/videos/movie.MKV finished"; "/videos/clip.m4v finished"].
Proof. repeat split; vm_compute; reflexivity. Qed.

(** ** FrameAnnotator: the target size *)

Section IntFacts.



Lemma floor_unique (x : Q) (z : Z) :
  (inject_Z z <= x)%Q -> (x < inject_Z z + 1)%Q -> Qfloor x = z.
Proof.
  intros Hlo Hhi. destruct (floor_bounds x) as [Flo Fhi].
  assert (inject_Z z < inject_Z (Qfloor x + 1))%Q as H1.
  { rewrite inject_Z_plus. change (inject_Z 1) with 1%Q. lra. }
  assert (inject_Z (Qfloor x) < inject_Z (z + 1))%Q as H2.
  { rewrite inject_Z_plus. change (inject_Z 1) with 1%Q. lra. }
  rewrite <- Zlt_Qlt in H1, H2. lia.
Qed.

Lemma inject_Z_pos (z : Z) : 0 < z -> (0 < inject_Z z)%Q.
Proof. intros H. change 0%Q with (inject_Z 0). now rewrite <- Zlt_Qlt. Qed.


End IntFacts.




Section Binary64Sign.
Import Binary64.






End Binary64Sign.




(** ** FrameAnnotator: the timestamp text *)

(** C4 at two sampled frames of a 30 fps video. At frame 1815 (60.5 s)
    the code draws [0:01:00.01]: the remainder of the division, 15 frames,
    is passed as 15 milliseconds and the slice leaves two decimals; the
    time in the form [H:MM:SS.mmm] is [0:01:00.500]. At frame 0 the text
    has no fraction and the slice leaves [0:0]. *)
Theorem timestamp_text_is_not_the_time :
  timestamp_text 1815 30 = "0:01:00.01" /\
  spec_timestamp_text 1815 30 = "0:01:00.500" /\
  timestamp_text 0 30 = "0:0" /\
  spec_timestamp_text 0 30 = "0:00:00.000" /\
  Py.divmod 1815 30 = (60%Q, 15%Q).
Proof. repeat split; vm_compute; reflexivity. Qed.

(** ** The statement monad *)

Section MonadFacts.
Context `{cv : Cv2}.

Lemma bind_run {A B} (m : M A) (f : A -> M B) (w : World) :
  (m ≫= f) w =
  match m w with
  | (Normal a, w') => f a w'
  | (Returned, w') => (Returned, w')
  | (Raised e, w') => (Raised e, w')
  end.
Proof. reflexivity. Qed.

Lemma for_each_cons {X S} (x : X) (xs : list X) (body : X -> S -> M S) (s : S)
    (w : World) :
  for_each (x :: xs) body s w =
  match body x s w with
  | (Normal s', w') => for_each xs body s' w'
  | (Returned, w') => (Returned, w')
  | (Raised e, w') => (Raised e, w')
  end.
Proof. reflexivity. Qed.

Lemma only_sampled_trans (w1 w2 w3 : World) :
  only_sampled w1 w2 -> only_sampled w2 w3 -> only_sampled w1 w3.
Proof.
  intros (c1 & E1 & N1) (c2 & E2 & N2). exists (c1 ++ c2).
  rewrite E2, E1, app_assoc. split; [reflexivity |].
  rewrite elem_of_app. tauto.
Qed.

Lemma only_sampled_slots (cap : VideoCapture) (ps : list Z) (w w' : World) :
  cap_calls w' = cap_calls w ++ slot_calls cap ps -> only_sampled w w'.
Proof.
  intros E. exists (slot_calls cap ps). split; [exact E |]. clear E.
  unfold slot_calls. induction ps as [| p ps IH]; [apply not_elem_of_nil |].
  cbn. rewrite !not_elem_of_cons. repeat split; [discriminate | discriminate | exact IH].
Qed.

End MonadFacts.

(** ** FrameSampler *)

Section SamplerFacts.
Context `{cv : Cv2}.
Variable cap : VideoCapture.
Variable fps : Q.
Variables columns frame_interval : Z.

(** One sample attempt, by the outcome of the read and of the
    annotation. *)
Lemma sample_slot_run (row_frames : list Image) (current_frame : Z) (w : World) :
  exists w',
    files w' = files w /\ stdout w' = stdout w /\
    match read_at cap current_frame with
    | Ok (Some frame) =>
        match annotate cap fps columns current_frame frame with
        | Ok frame' =>
            sample_slot cap fps columns frame_interval (row_frames, current_frame) w
            = (Normal (row_frames ++ [frame'], current_frame + frame_interval), w') /\
            cap_calls w' = cap_calls w ++ [CapSet current_frame; CapRead true] /\
            progress w' = progress w + 1
        | Err e =>
            sample_slot cap fps columns frame_interval (row_frames, current_frame) w
            = (Raised e, w') /\
            cap_calls w' = cap_calls w ++ [CapSet current_frame; CapRead true]
        end
    | Ok None =>
        sample_slot cap fps columns frame_interval (row_frames, current_frame) w
        = (Normal (row_frames, current_frame + frame_interval), w') /\
        cap_calls w' = cap_calls w ++ [CapSet current_frame; CapRead false] /\
        progress w' = progress w + 1
    | Err e =>
        sample_slot cap fps columns frame_interval (row_frames, current_frame) w
        = (Raised e, w') /\
        cap_calls w' = cap_calls w ++ [CapSet current_frame]
    end.
Proof.
  unfold sample_slot. rewrite !bind_run. cbn [cap_set].
  rewrite bind_run. unfold cap_read. cbn [position call].
  destruct (read_at cap current_frame) as [[frame |] | e].
  - rewrite bind_run. unfold eval.
    destruct (annotate cap fps columns current_frame frame) as [frame' | e].
    + eexists. split; [| split; [| split; [reflexivity |]]]; cbn; try reflexivity.
      split; [now rewrite <- app_assoc | reflexivity].
    + eexists. split; [| split; [| split; [reflexivity |]]]; cbn; try reflexivity.
      now rewrite <- app_assoc.
  - eexists. split; [| split; [| split; [reflexivity |]]]; cbn; try reflexivity.
    split; [now rewrite <- app_assoc | reflexivity].
  - eexists. split; [| split; [| split; [reflexivity |]]]; cbn; reflexivity.
Qed.

Lemma not_release_in (calls : list CapCall) :
  Forall (fun c => c <> CapRelease) calls -> CapRelease ∉ calls.
Proof.
  intros H Hin. rewrite Forall_forall in H. apply (H _ Hin). reflexivity.
Qed.

Lemma slot_frame (pos : Z) (frame frame' : Image) :
  read_at cap pos = Ok (Some frame) ->
  annotate cap fps columns pos frame = Ok frame' ->
  emit cap fps columns pos = Some frame' /\ ret_at cap pos = true.
Proof. intros Hr Ha. unfold emit, ret_at. now rewrite Hr, Ha. Qed.

Lemma slot_no_frame (pos : Z) :
  read_at cap pos = Ok None ->
  emit cap fps columns pos = None /\ ret_at cap pos = false.
Proof. intros Hr. unfold emit, ret_at. now rewrite Hr. Qed.

(** The inner loop over any list of loop indices: one attempt per index,
    [frame_interval] apart; a frame is appended for each read that gives
    one; the loop never executes [return]. *)
Lemma row_frames_loop (xs : list Z) :
  forall (row_frames : list Image) (current_frame : Z) (w : World) flow w',
    for_each xs (fun _ => sample_slot cap fps columns frame_interval)
             (row_frames, current_frame) w = (flow, w') ->
    files w' = files w /\ stdout w' = stdout w /\
    match flow with
    | Normal (row_frames', current_frame') =>
        let ps := positions frame_interval current_frame (length xs) in
        current_frame' = current_frame + Z.of_nat (length xs) * frame_interval /\
        cap_calls w' = cap_calls w ++ slot_calls cap ps /\
        progress w' = progress w + Z.of_nat (length xs) /\
        row_frames' = row_frames ++ omap (emit cap fps columns) ps
    | Returned => False
    | Raised _ => only_sampled w w'
    end.
Proof.
  induction xs as [| x xs IH]; intros rf cf w flow w' Hrun.
  - cbn in Hrun. injection Hrun as <- <-.
    split; [reflexivity |]. split; [reflexivity |]. cbn.
    rewrite !app_nil_r. repeat split; lia.
  - rewrite for_each_cons in Hrun.
    destruct (sample_slot_run rf cf w) as (w1 & Hf1 & Hs1 & Hcase).
    destruct (read_at cap cf) as [[frame |] | e] eqn:Hread;
      [destruct (annotate cap fps columns cf frame) as [frame' | e] eqn:Hann |..].
    + destruct Hcase as (Hslot & Hc1 & Hp1). rewrite Hslot in Hrun.
      apply IH in Hrun as (Hf & Hs & Hflow).
      split; [congruence |]. split; [congruence |].
      destruct flow as [[rf' cf'] | | e].
      * destruct Hflow as (Hcf & Hc & Hp & Hrf).
        cbv zeta. cbn [length positions slot_calls flat_map omap list_omap].
        destruct (slot_frame cf frame frame' Hread Hann) as [-> ->].
        rewrite Hc, Hc1, Hrf, <- !app_assoc. cbn [app].
        repeat split; try reflexivity; lia.
      * exact Hflow.
      * eapply only_sampled_trans; [| exact Hflow].
        eexists. split; [exact Hc1 |].
        apply not_release_in. repeat constructor; discriminate.
    + destruct Hcase as (Hslot & Hc1). rewrite Hslot in Hrun.
      injection Hrun as <- <-.
      split; [exact Hf1 |]. split; [exact Hs1 |].
      eexists. split; [exact Hc1 |].
      apply not_release_in. repeat constructor; discriminate.
    + destruct Hcase as (Hslot & Hc1 & Hp1). rewrite Hslot in Hrun.
      apply IH in Hrun as (Hf & Hs & Hflow).
      split; [congruence |]. split; [congruence |].
      destruct flow as [[rf' cf'] | | e].
      * destruct Hflow as (Hcf & Hc & Hp & Hrf).
        cbv zeta. cbn [length positions slot_calls flat_map omap list_omap].
        destruct (slot_no_frame cf Hread) as [-> ->].
        rewrite Hc, Hc1, Hrf, <- !app_assoc. cbn [app].
        repeat split; try reflexivity; lia.
      * exact Hflow.
      * eapply only_sampled_trans; [| exact Hflow].
        eexists. split; [exact Hc1 |].
        apply not_release_in. repeat constructor; discriminate.
    + destruct Hcase as (Hslot & Hc1). rewrite Hslot in Hrun.
      injection Hrun as <- <-.
      split; [exact Hf1 |]. split; [exact Hs1 |].
      eexists. split; [exact Hc1 |].
      apply not_release_in. repeat constructor; discriminate.
Qed.

End SamplerFacts.

(** ** GridAssembler *)

Section AssemblerFacts.
Context `{cv : Cv2}.
Variables output_folder video_name : string.

(** The end of a row, by the guard and the outcome of [hconcat]. *)
Lemma close_row_run (rows row_frames : list Image) (w : World) :
  if negb (bool_decide (row_frames = [])) && check_frame_dimensions row_frames
  then
    match hconcat row_frames with
    | Ok row =>
        close_row output_folder video_name rows row_frames w
        = (Normal (rows ++ [row]), w)
    | Err (cv2_error msg) =>
        exists w',
          close_row output_folder video_name rows row_frames w = (Returned, w') /\
          files w' = <[Path.join output_folder (video_name +:+ "_thumbnail.png")
                      := zeros (1, 1, 3)]> (files w) /\
          stdout w' = stdout w ++ ["Error during hconcat: " +:+ msg] /\
          cap_calls w' = cap_calls w
    | Err e =>
        close_row output_folder video_name rows row_frames w = (Raised e, w)
    end
  else
    close_row output_folder video_name rows row_frames w = (Normal rows, w).
Proof.
  unfold close_row, try_except.
  destruct (negb (bool_decide (row_frames = [])) && check_frame_dimensions row_frames);
    [| reflexivity].
  rewrite bind_run. unfold eval.
  destruct (hconcat row_frames) as [row | [msg | |]]; try reflexivity.
  eexists. split; [reflexivity |]. cbn. repeat split; reflexivity.
Qed.

(** The end of the pipeline, by the guard and the outcome of [vconcat]. *)
Lemma finish_run (rows : list Image) (w : World) :
  if stackable rows
  then
    match vconcat rows with
    | Ok grid_image =>
        exists w',
          finish output_folder video_name rows w = (Normal tt, w') /\
          files w' = <[Path.join output_folder (video_name +:+ "_thumbnail.png")
                      := grid_image]> (files w) /\
          stdout w' = stdout w /\
          cap_calls w' = cap_calls w ++ [CapRelease]
    | Err (cv2_error msg) =>
        exists w',
          finish output_folder video_name rows w = (Returned, w') /\
          files w' = <[Path.join output_folder (video_name +:+ "_thumbnail.png")
                      := zeros (1, 1, 3)]> (files w) /\
          stdout w' = stdout w ++ ["Error during vconcat: " +:+ msg] /\
          cap_calls w' = cap_calls w
    | Err e => finish output_folder video_name rows w = (Raised e, w)
    end
  else
    exists w',
      finish output_folder video_name rows w = (Normal tt, w') /\
      files w' = files w /\
      stdout w' = stdout w ++ ["Error: grid_image is empty"] /\
      cap_calls w' = cap_calls w ++ [CapRelease].
Proof.
  unfold finish, stack_rows, stackable. rewrite bind_run. unfold try_except.
  destruct rows as [| row0 rows'].
  - eexists. split; [reflexivity |]. cbn. repeat split; reflexivity.
  - destruct (bool_decide _).
    + rewrite bind_run. unfold eval.
      destruct (vconcat (row0 :: rows')) as [grid_image | [msg | |]];
        try reflexivity;
        (eexists; split; [reflexivity |]; cbn; repeat split; reflexivity).
    + eexists. split; [reflexivity |]. cbn. repeat split; reflexivity.
Qed.

End AssemblerFacts.

Section PositionFacts.
Context `{cv : Cv2}.

Lemma positions_app (v start : Z) (a b : nat) :
  positions v start (a + b) =
  positions v start a ++ positions v (start + Z.of_nat a * v) b.
Proof.
  revert start. induction a as [| a IH]; intros start.
  - cbn. f_equal. lia.
  - cbn [Nat.add positions app]. rewrite IH. do 3 f_equal. lia.
Qed.

(** The positions are [start + k * v] for [k = 0 .. n - 1]. *)
Lemma positions_closed (v start : Z) (n : nat) :
  positions v start n = (fun k => start + k * v) <$> seqZ 0 (Z.of_nat n).
Proof.
  revert start. induction n as [| n IH]; intros start; [reflexivity |].
  rewrite seqZ_cons by lia. cbn [positions fmap list_fmap]. f_equal; [lia |].
  rewrite IH. replace (Z.pred (Z.of_nat (S n))) with (Z.of_nat n) by lia.
  change (Z.succ 0) with (1 + 0). rewrite <- (fmap_add_seqZ 1 0).
  rewrite <- list_fmap_compose. apply list_fmap_ext. intros _ k _. cbn. lia.
Qed.

Lemma slot_calls_app (cap : VideoCapture) (ps qs : list Z) :
  slot_calls cap (ps ++ qs) = slot_calls cap ps ++ slot_calls cap qs.
Proof. apply flat_map_app. Qed.

Lemma seeks_app (a b : list CapCall) : seeks (a ++ b) = seeks a ++ seeks b.
Proof. apply omap_app. Qed.

Lemma reads_app (a b : list CapCall) : reads (a ++ b) = reads a ++ reads b.
Proof. apply omap_app. Qed.

Lemma seeks_slot_calls (cap : VideoCapture) (ps : list Z) :
  seeks (slot_calls cap ps) = ps.
Proof.
  induction ps as [| p ps IH]; [reflexivity |].
  unfold seeks, slot_calls in *. cbn. f_equal. exact IH.
Qed.

Lemma reads_slot_calls (cap : VideoCapture) (ps : list Z) :
  reads (slot_calls cap ps) = ret_at cap <$> ps.
Proof.
  induction ps as [| p ps IH]; [reflexivity |].
  unfold reads, slot_calls in *. cbn. f_equal. exact IH.
Qed.

Lemma length_omap_le {A B} (f : A -> option B) (l : list A) :
  (length (omap f l) <= length l)%nat.
Proof.
  induction l as [| a l IH]; [reflexivity |].
  cbn. destruct (f a); cbn; lia.
Qed.

End PositionFacts.

Section RowsFacts.
Context `{cv : Cv2}.
Variable cap : VideoCapture.
Variable fps : Q.
Variables columns frame_interval : Z.
Variables output_folder video_name : string.

(** The outer loop over any list of loop indices. When it falls through,
    every slot of every row was attempted once and nothing was written or
    printed. When it executes [return], the placeholder was written (this
    is the handler of an [hconcat] error). When it raises, nothing was
    written. In no case was the capture released. *)
Lemma rows_loop (xs : list Z) :
  forall (rows : list Image) (current_frame : Z) (w : World) flow w',
    for_each xs
      (fun _ => sample_row cap fps columns frame_interval output_folder video_name)
      (rows, current_frame) w = (flow, w') ->
    let n := (length xs * Z.to_nat columns)%nat in
    match flow with
    | Normal (rows', current_frame') =>
        files w' = files w /\ stdout w' = stdout w /\
        current_frame' = current_frame + Z.of_nat n * frame_interval /\
        cap_calls w' =
          cap_calls w ++ slot_calls cap (positions frame_interval current_frame n) /\
        progress w' = progress w + Z.of_nat n /\
        (length rows' <= length rows + length xs)%nat
    | Returned =>
        files w' =
          <[Path.join output_folder (video_name +:+ "_thumbnail.png")
            := zeros (1, 1, 3)]> (files w) /\
        (exists msg, stdout w' = stdout w ++ ["Error during hconcat: " +:+ msg]) /\
        only_sampled w w'
    | Raised _ =>
        files w' = files w /\ stdout w' = stdout w /\ only_sampled w w'
    end.
Proof.
  induction xs as [| x xs IH]; intros rows cf w flow w' Hrun n.
  - cbn in Hrun. injection Hrun as <- <-. subst n. cbn.
    rewrite app_nil_r. repeat split; lia.
  - rewrite for_each_cons in Hrun.
    unfold sample_row at 1 in Hrun. rewrite bind_run in Hrun.
    unfold sample_row_frames in Hrun.
    destruct (for_each (range columns) _ ([], cf) w) as [flow1 w1] eqn:Hrow.
    apply row_frames_loop in Hrow as (Hf1 & Hs1 & Hflow1).
    assert (length (range columns) = Z.to_nat columns) as Hlen.
    { unfold range. apply length_seqZ. }
    rewrite Hlen in Hflow1.
    destruct flow1 as [[rf cf1] | | e1].
    + destruct Hflow1 as (Hcf1 & Hc1 & Hp1 & _).
      rewrite bind_run in Hrun.
      pose proof (close_row_run output_folder video_name rows rf w1) as Hclose.
      destruct (negb (bool_decide (rf = [])) && check_frame_dimensions rf).
      * destruct (hconcat rf) as [row | [msg | |]].
        -- rewrite Hclose in Hrun. cbn [mret M_ret] in Hrun.
           apply IH in Hrun. subst n.
           cbn [length Nat.mul]. rewrite positions_app, slot_calls_app.
           destruct flow as [[rows' cf'] | | e].
           ++ destruct Hrun as (Hf & Hs & Hcf & Hc & Hp & Hl).
              rewrite length_app in Hl. cbn in Hl.
              rewrite Hc, Hc1, Hcf, Hcf1, Hp, Hp1, <- app_assoc.
              repeat split; try congruence; lia.
           ++ destruct Hrun as (Hf & Hs & Ho).
              rewrite Hf, Hf1, <- Hs1. split; [reflexivity |]. split; [exact Hs |].
              eapply only_sampled_trans; [| exact Ho].
              eapply only_sampled_slots; eauto.
           ++ destruct Hrun as (Hf & Hs & Ho).
              split; [congruence |]. split; [congruence |].
              eapply only_sampled_trans; [| exact Ho].
              eapply only_sampled_slots; eauto.
        -- destruct Hclose as (w2 & Hclose & Hf2 & Hs2 & Hc2).
           rewrite Hclose in Hrun. injection Hrun as <- <-.
           rewrite Hf2, Hf1, Hs2, Hs1. split; [reflexivity |].
           split; [now exists msg |].
           eapply only_sampled_trans; [eapply only_sampled_slots; eauto |].
           exists []. rewrite app_nil_r. split; [exact Hc2 | apply not_elem_of_nil].
        -- rewrite Hclose in Hrun. injection Hrun as <- <-.
           split; [exact Hf1 |]. split; [exact Hs1 |].
           eapply only_sampled_slots; eauto.
        -- rewrite Hclose in Hrun. injection Hrun as <- <-.
           split; [exact Hf1 |]. split; [exact Hs1 |].
           eapply only_sampled_slots; eauto.
      * rewrite Hclose in Hrun. cbn [mret M_ret] in Hrun.
        apply IH in Hrun. subst n.
        cbn [length Nat.mul]. rewrite positions_app, slot_calls_app.
        destruct flow as [[rows' cf'] | | e].
        -- destruct Hrun as (Hf & Hs & Hcf & Hc & Hp & Hl).
           rewrite Hc, Hc1, Hcf, Hcf1, Hp, Hp1, <- app_assoc.
           repeat split; try congruence; lia.
        -- destruct Hrun as (Hf & Hs & Ho).
           rewrite Hf, Hf1, <- Hs1. split; [reflexivity |]. split; [exact Hs |].
           eapply only_sampled_trans; [| exact Ho].
           eapply only_sampled_slots; eauto.
        -- destruct Hrun as (Hf & Hs & Ho).
           split; [congruence |]. split; [congruence |].
           eapply only_sampled_trans; [| exact Ho].
           eapply only_sampled_slots; eauto.
    + contradiction.
    + injection Hrun as <- <-. tauto.
Qed.

End RowsFacts.

(** ** ThumbnailPipeline *)

Section PipelineFacts.
Context `{cv : Cv2}.
Variable disk : string -> VideoCapture.
Variables video_path output_folder : string.

Abbreviation cap := (disk video_path) (only parsing).
Abbreviation video_name := (fst (Path.splitext (Path.basename video_path))) (only parsing).
Abbreviation thumbnail_path := (thumbnail_of video_path output_folder) (only parsing).
Abbreviation fps := (CAP_PROP_FPS (disk video_path)) (only parsing).
Abbreviation total_frames := (Py.int (CAP_PROP_FRAME_COUNT (disk video_path))) (only parsing).

(** The handler of the outer [try]. *)
Lemma outer_handler_run (msg : string) (w : World) :
  exists w',
    (print ("OpenCV Error: " +:+ msg);;
     print ("Skipping video: " +:+ video_path);;
     save_black_image output_folder video_name;;
     cap_release;;
     return_ : M unit) w = (Returned, w') /\
    files w' = <[thumbnail_path := zeros (1, 1, 3)]> (files w) /\
    cap_calls w' = cap_calls w ++ [CapRelease].
Proof. eexists. split; [reflexivity |]. cbn. split; reflexivity. Qed.

(** A run that gets past the three early exits is the sampling, then the
    end of the pipeline, inside the outer [try]. *)
Lemma pipeline_run (w : World) (columns rows_n frame_interval : Z) :
  files w !! thumbnail_path = None ->
  isOpened cap = true ->
  Qeq_bool fps 0 = false ->
  total_frames <> 0 ->
  grid_plan fps total_frames = Ok (columns, rows_n, frame_interval) ->
  create_thumbnail_grid disk video_path output_folder w =
  try_except
    ('(rows, _) ← sampling cap fps columns rows_n frame_interval
                            output_folder video_name;
     finish output_folder video_name rows)
    (fun e =>
       print ("OpenCV Error: " +:+ e);;
       print ("Skipping video: " +:+ video_path);;
       save_black_image output_folder video_name;;
       cap_release;;
       return_) w.
Proof.
  intros Hnone Hopen Hfps Htotal Hplan.
  unfold create_thumbnail_grid. rewrite bind_run. unfold path_exists.
  change (Path.join output_folder
            (fst (Path.splitext (Path.basename video_path)) +:+ "_thumbnail.png"))
    with thumbnail_path.
  rewrite Hnone. rewrite bool_decide_eq_false_2 by (intros [? ?]; discriminate).
  rewrite Hopen. cbn [negb].
  unfold try_except, grid_body.
  rewrite Hfps. destruct (Z.eqb_spec total_frames 0) as [| _]; [contradiction |].
  cbn [orb]. rewrite Hplan. reflexivity.
Qed.


(** The two handlers of concatenation errors leave without releasing the
    capture: when the sampling loop executes [return] (an [hconcat]
    error) and when [vconcat] raises, no release is among the calls of
    the run. *)
Lemma concat_error_never_releases (w : World) (columns rows_n frame_interval : Z) :
  files w !! thumbnail_path = None ->
  isOpened cap = true ->
  Qeq_bool fps 0 = false ->
  total_frames <> 0 ->
  grid_plan fps total_frames = Ok (columns, rows_n, frame_interval) ->
  let final := snd (create_thumbnail_grid disk video_path output_folder w) in
  match sampling cap fps columns rows_n frame_interval output_folder video_name w with
  | (Returned, _) => only_sampled w final
  | (Normal (rows, _), _) =>
      stackable rows = true ->
      (exists msg, vconcat rows = Err (cv2_error msg)) ->
      only_sampled w final
  | _ => True
  end.
Proof.
  intros Hnone Hopen Hfps Htotal Hplan final.
  subst final. rewrite (pipeline_run w columns rows_n frame_interval) by assumption.
  unfold try_except. rewrite bind_run.
  destruct (sampling cap fps columns rows_n frame_interval output_folder video_name w)
    as [flow w2] eqn:Hsamp.
  unfold sampling in Hsamp. apply rows_loop in Hsamp. cbv zeta in Hsamp.
  destruct flow as [[rows cf] | | e]; [| | exact I].
  - destruct Hsamp as (_ & _ & _ & Hcalls & _).
    intros Hstack [msg Hv].
    pose proof (finish_run output_folder video_name rows w2) as Hfin.
    rewrite Hstack, Hv in Hfin. destruct Hfin as (w3 & -> & _ & _ & Hc3).
    cbn [snd]. eapply only_sampled_slots. rewrite Hc3. exact Hcalls.
  - destruct Hsamp as (_ & _ & Ho). exact Ho.
Qed.

(** The guard of the final step looks at the first row image alone. *)
Lemma final_guard_reads_first_row (row0 : Image) (rest : list Image) :
  stackable (row0 :: rest) = stackable [row0].
Proof. reflexivity. Qed.

End PipelineFacts.

Section SingleSample.
Context `{cv : Cv2}.
Variable disk : string -> VideoCapture.
Variables video_path output_folder : string.

Ltac chase_calls :=
  eexists; split;
  [ repeat match goal with
           | H : cap_calls ?x = _ |- context [cap_calls ?x] => rewrite H
           end;
    rewrite <- ?app_assoc; reflexivity
  | cbn; split; reflexivity ].

(** What a run on a 1x1 grid calls on the capture: one seek, to frame
    0, and one read, unless the read raises. *)
Lemma single_sample_calls (w : World) (frame_interval : Z) :
  files w !! thumbnail_of video_path output_folder = None ->
  isOpened (disk video_path) = true ->
  Qeq_bool (CAP_PROP_FPS (disk video_path)) 0 = false ->
  Py.int (CAP_PROP_FRAME_COUNT (disk video_path)) <> 0 ->
  grid_plan (CAP_PROP_FPS (disk video_path))
            (Py.int (CAP_PROP_FRAME_COUNT (disk video_path)))
  = Ok (1, 1, frame_interval) ->
  exists tail,
    cap_calls (snd (create_thumbnail_grid disk video_path output_folder w))
    = cap_calls w ++ tail /\
    seeks tail = [0] /\
    reads tail = match read_at (disk video_path) 0 with
                 | Ok (Some _) => [true]
                 | Ok None => [false]
                 | Err _ => []
                 end.
Proof.
  intros Hnone Hopen Hfps Hcount Hplan.
  rewrite (pipeline_run disk video_path output_folder w 1 1 frame_interval)
    by assumption.
  set (cap := disk video_path). set (fps := CAP_PROP_FPS cap).
  set (name := fst (Path.splitext (Path.basename video_path))).
  unfold try_except. rewrite bind_run. unfold sampling.
  change (range 1) with [0]. rewrite for_each_cons.
  unfold sample_row at 1. rewrite bind_run. unfold sample_row_frames.
  change (range 1) with [0]. rewrite for_each_cons.
  destruct (sample_slot_run cap fps 1 frame_interval [] 0 w) as (w1 & _ & _ & Hcase).
  destruct (read_at cap 0) as [[frame |] | e];
    [destruct (annotate cap fps 1 0 frame) as [frame' | e] |..].
  - destruct Hcase as (-> & Hc1 & _). cbn [for_each mret M_ret].
    rewrite bind_run.
    pose proof (close_row_run output_folder name [] ([] ++ [frame']) w1) as Hrow.
    destruct (negb _ && _).
    + destruct (hconcat ([] ++ [frame'])) as [row | [msg | |]].
      * rewrite Hrow. cbn [for_each mret M_ret].
        pose proof (finish_run output_folder name ([] ++ [row]) w1) as Hfin.
        destruct (stackable _).
        -- destruct (vconcat _) as [grid_image | [msg | |]].
           ++ destruct Hfin as (w3 & -> & _ & _ & Hc3). cbn [snd]. chase_calls.
           ++ destruct Hfin as (w3 & -> & _ & _ & Hc3). cbn [snd]. chase_calls.
           ++ rewrite Hfin. cbn [snd]. chase_calls.
           ++ rewrite Hfin. cbn [snd]. chase_calls.
        -- destruct Hfin as (w3 & -> & _ & _ & Hc3). cbn [snd]. chase_calls.
      * destruct Hrow as (w2 & -> & _ & _ & Hc2). cbn [snd]. chase_calls.
      * rewrite Hrow. cbn [snd]. chase_calls.
      * rewrite Hrow. cbn [snd]. chase_calls.
    + rewrite Hrow. cbn [for_each mret M_ret].
      pose proof (finish_run output_folder name [] w1) as Hfin.
      cbn [stackable] in Hfin.
      destruct Hfin as (w3 & -> & _ & _ & Hc3). cbn [snd]. chase_calls.
  - destruct Hcase as (-> & Hc1).
    destruct e as [msg | |]; cbn [snd]; try chase_calls.
    destruct (outer_handler_run video_path output_folder msg w1)
      as (w3 & Hrun & _ & Hc3).
    fold cap name in Hrun. rewrite Hrun. cbn [snd]. chase_calls.
  - destruct Hcase as (-> & Hc1 & _). cbn [for_each mret M_ret].
    rewrite bind_run.
    pose proof (close_row_run output_folder name [] [] w1) as Hrow.
    rewrite bool_decide_eq_true_2 in Hrow by reflexivity. cbn [negb andb] in Hrow.
    rewrite Hrow. cbn [for_each mret M_ret].
    pose proof (finish_run output_folder name [] w1) as Hfin.
    cbn [stackable] in Hfin.
    destruct Hfin as (w3 & -> & _ & _ & Hc3). cbn [snd]. chase_calls.
  - destruct Hcase as (-> & Hc1).
    destruct e as [msg | |]; cbn [snd]; try chase_calls.
    destruct (outer_handler_run video_path output_folder msg w1)
      as (w3 & Hrun & _ & Hc3).
    fold cap name in Hrun. rewrite Hrun. cbn [snd]. chase_calls.
Qed.

Lemma check_frame_dimensions_one (frame : Image) :
  check_frame_dimensions [frame] = true.
Proof.
  unfold check_frame_dimensions. apply bool_decide_eq_true.
  cbn [fmap list_fmap list_to_set]. rewrite (right_id_L ∅ (∪)).
  apply size_singleton.
Qed.

(** The frames kept by the inner loop of a row of one column. *)
Lemma single_sample_frames (cap : VideoCapture) (fps : Q) (frame_interval : Z)
    (w : World) :
  fst (sample_row_frames cap fps 1 frame_interval 0 w)
  = match read_at cap 0 with
    | Ok (Some frame) =>
        match annotate cap fps 1 0 frame with
        | Ok frame' => Normal ([frame'], frame_interval)
        | Err e => Raised e
        end
    | Ok None => Normal ([], frame_interval)
    | Err e => Raised e
    end.
Proof.
  unfold sample_row_frames. change (range 1) with [0]. rewrite for_each_cons.
  destruct (sample_slot_run cap fps 1 frame_interval [] 0 w) as (w1 & _ & _ & Hcase).
  destruct (read_at cap 0) as [[frame |] | e];
    [destruct (annotate cap fps 1 0 frame) as [frame' | e] |..].
  - destruct Hcase as (-> & _). reflexivity.
  - destruct Hcase as (-> & _). reflexivity.
  - destruct Hcase as (-> & _). reflexivity.
  - destruct Hcase as (-> & _). reflexivity.
Qed.

(** The thumbnail of a run on a 1x1 grid is made of the one frame. *)
Lemma single_sample_grid (w : World) (frame_interval : Z)
    (frame frame' row grid_image : Image) :
  files w !! thumbnail_of video_path output_folder = None ->
  isOpened (disk video_path) = true ->
  Qeq_bool (CAP_PROP_FPS (disk video_path)) 0 = false ->
  Py.int (CAP_PROP_FRAME_COUNT (disk video_path)) <> 0 ->
  grid_plan (CAP_PROP_FPS (disk video_path))
            (Py.int (CAP_PROP_FRAME_COUNT (disk video_path)))
  = Ok (1, 1, frame_interval) ->
  read_at (disk video_path) 0 = Ok (Some frame) ->
  annotate (disk video_path) (CAP_PROP_FPS (disk video_path)) 1 0 frame = Ok frame' ->
  hconcat [frame'] = Ok row ->
  stackable [row] = true ->
  vconcat [row] = Ok grid_image ->
  exists w',
    create_thumbnail_grid disk video_path output_folder w = (Normal tt, w') /\
    files w' = <[thumbnail_of video_path output_folder := grid_image]> (files w).
Proof.
  intros Hnone Hopen Hfps Hcount Hplan Hread Hann Hrow Hstack Hgrid.
  rewrite (pipeline_run disk video_path output_folder w 1 1 frame_interval)
    by assumption.
  set (cap := disk video_path) in *. set (fps := CAP_PROP_FPS cap) in *.
  set (name := fst (Path.splitext (Path.basename video_path))).
  unfold try_except. rewrite bind_run. unfold sampling.
  change (range 1) with [0]. rewrite for_each_cons.
  unfold sample_row at 1. rewrite bind_run. unfold sample_row_frames.
  change (range 1) with [0]. rewrite for_each_cons.
  destruct (sample_slot_run cap fps 1 frame_interval [] 0 w) as (w1 & Hf1 & _ & Hcase).
  rewrite Hread, Hann in Hcase. destruct Hcase as (-> & _).
  cbn [for_each mret M_ret app]. rewrite bind_run.
  pose proof (close_row_run output_folder name [] [frame'] w1) as Hclose.
  rewrite bool_decide_eq_false_2, check_frame_dimensions_one, Hrow in Hclose
    by discriminate.
  cbn [negb andb app] in Hclose. rewrite Hclose. cbn [for_each mret M_ret].
  pose proof (finish_run output_folder name [row] w1) as Hfin.
  rewrite Hstack, Hgrid in Hfin. destruct Hfin as (w3 & -> & Hf3 & _).
  exists w3. split; [reflexivity |]. rewrite Hf3, Hf1. reflexivity.
Qed.

(** C7. A video of 900 frames at 30 fps lasts half a minute, which is
    raised to one minute; the grid is 1x1 and the frame interval is
    [max(1, 900 // 1) = 900]. The pipeline takes exactly one sample, at
    frame 0: it seeks once, to frame 0, and reads once there (the read is
    missing from the record only when it raises). The frame read there,
    resized and labelled, is the one frame of the one row, and the
    thumbnail is made of it: when the read gives no frame ([ret] is
    false) the row has none. *)
Theorem half_minute_video_one_sample (w : World) :
  files w !! thumbnail_of video_path output_folder = None ->
  isOpened (disk video_path) = true ->
  CAP_PROP_FPS (disk video_path) = 30%Q ->
  CAP_PROP_FRAME_COUNT (disk video_path) = 900%Q ->
  (inject_Z 900 / (30 * 60) == 1 # 2)%Q /\
  video_length_minutes 30 900 = 1%Q /\
  find_closest_numbers 1 = Ok (Some (1, 1)) /\
  grid_plan 30 900 = Ok (1, 1, 900) /\
  let cap := disk video_path in
  let run := create_thumbnail_grid disk video_path output_folder w in
  seeks (cap_calls (snd run)) = seeks (cap_calls w) ++ [0] /\
  reads (cap_calls (snd run))
  = reads (cap_calls w) ++ match read_at cap 0 with
                           | Ok (Some _) => [true]
                           | Ok None => [false]
                           | Err _ => []
                           end /\
  fst (sample_row_frames cap 30 1 900 0 w)
  = match read_at cap 0 with
    | Ok (Some frame) =>
        match annotate cap 30 1 0 frame with
        | Ok frame' => Normal ([frame'], 900)
        | Err e => Raised e
        end
    | Ok None => Normal ([], 900)
    | Err e => Raised e
    end /\
  (forall frame frame' row grid_image,
     read_at cap 0 = Ok (Some frame) ->
     annotate cap 30 1 0 frame = Ok frame' ->
     hconcat [frame'] = Ok row ->
     stackable [row] = true ->
     vconcat [row] = Ok grid_image ->
     fst run = Normal tt /\
     files (snd run)
     = <[thumbnail_of video_path output_folder := grid_image]> (files w)).
Proof.
  intros Hnone Hopen Hfps Hcount.
  split; [reflexivity |]. split; [reflexivity |]. split; [reflexivity |].
  split; [reflexivity |]. cbv zeta.
  assert (Qeq_bool (CAP_PROP_FPS (disk video_path)) 0 = false) as Hrate
    by (rewrite Hfps; reflexivity).
  assert (Py.int (CAP_PROP_FRAME_COUNT (disk video_path)) <> 0) as Htotal
    by (rewrite Hcount; discriminate).
  assert (grid_plan (CAP_PROP_FPS (disk video_path))
                    (Py.int (CAP_PROP_FRAME_COUNT (disk video_path)))
          = Ok (1, 1, 900)) as Hplan
    by (rewrite Hfps, Hcount; reflexivity).
  destruct (single_sample_calls w 900 Hnone Hopen Hrate Htotal Hplan)
    as (tail & -> & Hs & Hr).
  rewrite seeks_app, reads_app, Hs, Hr.
  split; [reflexivity |]. split; [reflexivity |].
  split; [apply single_sample_frames |].
  intros frame frame' row grid_image Hread Hann Hrow Hstack Hgrid.
  rewrite <- Hfps in Hann.
  destruct (single_sample_grid w 900 frame frame' row grid_image
              Hnone Hopen Hrate Htotal Hplan Hread Hann Hrow Hstack Hgrid)
    as (w' & -> & Hfiles).
  split; [reflexivity | exact Hfiles].
Qed.

End SingleSample.

Section SamplingTheorems.
Context `{cv : Cv2}.
Variable cap : VideoCapture.
Variable fps : Q.
Variables columns frame_interval : Z.
Variables output_folder video_name : string.

(** The inner loop falls through when no attempt raises. *)
Lemma row_frames_loop_ok (xs : list Z) :
  forall (row_frames : list Image) (current_frame : Z) (w : World),
    (forall pos, pos ∈ positions frame_interval current_frame (length xs) ->
                 slot_raises cap fps columns pos = false) ->
    exists row_frames' current_frame' w',
      for_each xs (fun _ => sample_slot cap fps columns frame_interval)
               (row_frames, current_frame) w
      = (Normal (row_frames', current_frame'), w').
Proof.
  induction xs as [| x xs IH]; intros rf cf w Hok.
  - now exists rf, cf, w.
  - rewrite for_each_cons.
    assert (slot_raises cap fps columns cf = false) as Hcf.
    { apply Hok. cbn. apply list_elem_of_here. }
    assert (forall pos,
              pos ∈ positions frame_interval (cf + frame_interval) (length xs) ->
              slot_raises cap fps columns pos = false) as Hrest.
    { intros pos Hpos. apply Hok. cbn. now apply list_elem_of_further. }
    destruct (sample_slot_run cap fps columns frame_interval rf cf w)
      as (w1 & _ & _ & Hcase).
    unfold slot_raises in Hcf.
    destruct (read_at cap cf) as [[frame |] | e];
      [destruct (annotate cap fps columns cf frame) as [frame' | e] |..];
      try discriminate.
    + destruct Hcase as (-> & _). now apply IH.
    + destruct Hcase as (-> & _). now apply IH.
Qed.

(** The outer loop falls through when no attempt raises and [hconcat]
    accepts the rows that pass the guard. *)
Lemma rows_loop_ok (xs : list Z) :
  hconcat_accepts_guarded ->
  forall (rows : list Image) (current_frame : Z) (w : World),
    (forall pos,
       pos ∈ positions frame_interval current_frame
               (length xs * Z.to_nat columns) ->
       slot_raises cap fps columns pos = false) ->
    exists rows' current_frame' w',
      for_each xs
        (fun _ => sample_row cap fps columns frame_interval output_folder video_name)
        (rows, current_frame) w
      = (Normal (rows', current_frame'), w').
Proof.
  intros Hh. induction xs as [| x xs IH]; intros rows cf w Hok.
  - now exists rows, cf, w.
  - cbn [length Nat.mul] in Hok. rewrite positions_app in Hok.
    rewrite for_each_cons. unfold sample_row at 1. rewrite bind_run.
    unfold sample_row_frames.
    assert (length (range columns) = Z.to_nat columns) as Hlen.
    { unfold range. apply length_seqZ. }
    destruct (row_frames_loop_ok (range columns) [] cf w) as (rf & cf1 & w1 & Hrow).
    { intros pos Hpos. apply Hok. rewrite elem_of_app. left. now rewrite <- Hlen. }
    rewrite Hrow.
    apply row_frames_loop in Hrow as (_ & _ & Hcf1 & _). rewrite Hlen in Hcf1.
    rewrite bind_run.
    pose proof (close_row_run output_folder video_name rows rf w1) as Hclose.
    destruct (negb (bool_decide (rf = []))) eqn:Hne; cbn [andb] in Hclose.
    + destruct (check_frame_dimensions rf) eqn:Hcheck.
      * destruct (Hh rf) as [row Hrowimg]; [| exact Hcheck |].
        { apply negb_true_iff, bool_decide_eq_false in Hne. exact Hne. }
        rewrite Hrowimg in Hclose. rewrite Hclose. cbn [mret M_ret].
        apply IH. intros pos Hpos. apply Hok. rewrite elem_of_app. right.
        now rewrite <- Hcf1.
      * rewrite Hclose. cbn [mret M_ret].
        apply IH. intros pos Hpos. apply Hok. rewrite elem_of_app. right.
        now rewrite <- Hcf1.
    + rewrite Hclose. cbn [mret M_ret].
      apply IH. intros pos Hpos. apply Hok. rewrite elem_of_app. right.
      now rewrite <- Hcf1.
Qed.

(** C6. For a grid of [columns] by [rows_n] and a frame interval [v]:
    when no library call raises, the two loops fall through; and when
    they fall through, the capture was sought exactly [rows_n * columns]
    times, to the frame indices [k * v] for [k = 0, 1, ...] in that
    order, each seek followed by one read whose outcome depends on that
    index alone; the frame index ends at [rows_n * columns * v] and the
    progress bar advanced by [rows_n * columns]; at most [rows_n] row
    images were made. The frames kept are those of the slots whose read
    gave a frame, each stamped for its own index: at most
    [rows_n * columns] over the run and at most [columns] in a row. *)
Theorem sampling_visits_every_slot (rows_n : Z) (w : World) :
  0 <= columns -> 0 <= rows_n ->
  let slots := (fun k => k * frame_interval) <$> seqZ 0 (rows_n * columns) in
  (hconcat_accepts_guarded ->
   (forall pos, pos ∈ slots -> slot_raises cap fps columns pos = false) ->
   exists rows current_frame w',
     sampling cap fps columns rows_n frame_interval output_folder video_name w
     = (Normal (rows, current_frame), w')) /\
  (forall rows current_frame w',
     sampling cap fps columns rows_n frame_interval output_folder video_name w
     = (Normal (rows, current_frame), w') ->
     cap_calls w' = cap_calls w ++ slot_calls cap slots /\
     seeks (slot_calls cap slots) = slots /\
     reads (slot_calls cap slots) = ret_at cap <$> slots /\
     length slots = Z.to_nat (rows_n * columns) /\
     (length (omap (emit cap fps columns) slots) <= Z.to_nat (rows_n * columns))%nat /\
     current_frame = rows_n * columns * frame_interval /\
     progress w' = progress w + rows_n * columns /\
     (length rows <= Z.to_nat rows_n)%nat) /\
  (forall start w0 row_frames current_frame w1,
     sample_row_frames cap fps columns frame_interval start w0
     = (Normal (row_frames, current_frame), w1) ->
     row_frames =
       omap (emit cap fps columns)
            ((fun k => start + k * frame_interval) <$> seqZ 0 columns) /\
     (length row_frames <= Z.to_nat columns)%nat /\
     current_frame = start + columns * frame_interval).
Proof.
  intros Hc Hr slots.
  assert (length (range rows_n) = Z.to_nat rows_n) as Hlr.
  { unfold range. apply length_seqZ. }
  assert (length (range columns) = Z.to_nat columns) as Hlc.
  { unfold range. apply length_seqZ. }
  assert (Z.of_nat (Z.to_nat rows_n * Z.to_nat columns) = rows_n * columns) as Hn.
  { rewrite Nat2Z.inj_mul, !Z2Nat.id by assumption. reflexivity. }
  assert (positions frame_interval 0 (Z.to_nat rows_n * Z.to_nat columns) = slots)
    as Hslots.
  { rewrite positions_closed, Hn. subst slots.
    apply list_fmap_ext. intros _ k _. lia. }
  split; [| split].
  - intros Hh Hok. unfold sampling. apply rows_loop_ok; [exact Hh |].
    rewrite Hlr, Hslots. exact Hok.
  - intros rows cf w' Hrun. unfold sampling in Hrun.
    apply rows_loop in Hrun. cbv zeta in Hrun. rewrite Hlr, Hslots in Hrun.
    destruct Hrun as (_ & _ & Hcf & Hcalls & Hp & Hl).
    rewrite Hn in Hcf, Hp.
    split; [exact Hcalls |]. split; [apply seeks_slot_calls |].
    split; [apply reads_slot_calls |].
    assert (length slots = Z.to_nat (rows_n * columns)) as Hls.
    { subst slots. now rewrite length_fmap, length_seqZ. }
    split; [exact Hls |].
    split; [rewrite <- Hls; apply length_omap_le |].
    cbn [length] in Hl. repeat split; lia.
  - intros start w0 rf cf w1 Hrun. unfold sample_row_frames in Hrun.
    apply row_frames_loop in Hrun as (_ & _ & Hcf & _ & _ & Hrf).
    cbv zeta in Hrf. rewrite Hlc in Hcf, Hrf.
    rewrite positions_closed in Hrf.
    rewrite Z2Nat.id in Hcf, Hrf by assumption.
    cbn [app] in Hrf. split; [exact Hrf |]. split; [| lia].
    rewrite Hrf. etransitivity; [apply length_omap_le |].
    rewrite length_fmap, length_seqZ. lia.
Qed.

End SamplingTheorems.

(** ** The reference instance *)

Section ReferenceInstance.
Import OpenCV.

Lemma same_of_equal_shapes (f : Img -> Z) (frames : list Img) :
  (forall a b, a ∈ frames -> b ∈ frames -> f a = f b) -> same f frames = true.
Proof.
  intros Heq. destruct frames as [| first rest]; [reflexivity |].
  cbn. apply forallb_forall. intros i Hi. apply Z.eqb_eq.
  apply Heq; [apply list_elem_of_further, list_elem_of_In, Hi | apply list_elem_of_here].
Qed.

(** Frames that pass the guard of line 97 have one shape. *)
Lemma guarded_frames_one_shape (frames : list Img) :
  check_frame_dimensions (cv := cv) frames = true ->
  forall a b, a ∈ frames -> b ∈ frames -> shape a = shape b.
Proof.
  unfold check_frame_dimensions. rewrite bool_decide_eq_true.
  intros Hsize a b Ha Hb.
  apply size_1_elem_of in Hsize as [s Hs].
  assert (forall i, i ∈ frames -> shape i = s) as Hall.
  { intros i Hi. apply (elem_of_singleton (C := gset (Z * Z * Z))).
    rewrite <- Hs. apply elem_of_list_to_set, list_elem_of_fmap. now exists i. }
  now rewrite (Hall a Ha), (Hall b Hb).
Qed.

(** [hconcat] of the reference instance accepts every guarded row. *)
Lemma reference_hconcat_accepts : hconcat_accepts_guarded (cv := cv).
Proof.
  intros frames _ Hcheck. exists (HCat frames).
  pose proof (guarded_frames_one_shape frames Hcheck) as Hshape.
  cbn. unfold img_hconcat.
  rewrite !same_of_equal_shapes; [reflexivity | |];
    intros a b Ha Hb; specialize (Hshape a b Ha Hb); cbn in Hshape;
    unfold channels, height; now rewrite Hshape.
Qed.

End ReferenceInstance.

(** ** The example videos *)

Section Scenarios.
Import OpenCV Videos.


(** C2 on [tall_second_row]: the two row images are 100 and 101 lines
    high; [vconcat] is called on them all the same and the grid, 201
    lines high, is written. *)
Theorem unequal_rows_are_stacked :
  let row0 := HCat [stamped 0 200 800 (400, 100) "0:0";
                    stamped 1800 200 800 (400, 100) "0:0"] in
  let row1 := HCat [stamped 3600 203 800 (400, 101) "0:0";
                    stamped 5400 203 800 (400, 101) "0:0"] in
  shape row0 = (100, 800, 3) /\
  shape row1 = (101, 800, 3) /\
  fst (run tall_second_row) = Normal tt /\
  files (snd (run tall_second_row)) !! thumbnail = Some (VCat [row0; row1]) /\
  shape (VCat [row0; row1]) = (201, 800, 3) /\
  stdout (snd (run tall_second_row)) = [].
Proof. cbv zeta. repeat split; vm_compute; reflexivity. Qed.

(** C3 on [short_last_row]: [vconcat] raises, the handler writes the
    placeholder and returns, and [cap.release()] is never called. The
    other exits do release: the normal one ([clean]), the one for an
    empty grid ([unreadable]) and the handler of the outer [try]
    ([broken_read]). *)
Theorem vconcat_error_leaves_capture_open :
  fst (run short_last_row) = Returned /\
  files (snd (run short_last_row)) !! thumbnail = Some (Zeros (1, 1, 3)) /\
  stdout (snd (run short_last_row))
  = ["Error during vconcat: vconcat: cols or type differ"] /\
  cap_calls (snd (run short_last_row))
  = [CapSet 0; CapRead true; CapSet 1800; CapRead true;
     CapSet 3600; CapRead true; CapSet 5400; CapRead false] /\
  released (cap_calls (snd (run short_last_row))) = false /\
  released (cap_calls (snd (run clean))) = true /\
  released (cap_calls (snd (run unreadable))) = true /\
  released (cap_calls (snd (run broken_read))) = true.
Proof. repeat split; vm_compute; reflexivity. Qed.


Lemma half_minute_video_one_sample_witness :
  files fresh !! thumbnail_of "/videos/clip.mp4" "/videos" = None /\
  isOpened half_minute = true /\
  CAP_PROP_FPS half_minute = 30%Q /\
  CAP_PROP_FRAME_COUNT half_minute = 900%Q /\
  grid_plan 30 900 = Ok (1, 1, 900) /\
  seeks (cap_calls (snd (run half_minute))) = [0] /\
  reads (cap_calls (snd (run half_minute))) = [true] /\
  fst (sample_row_frames half_minute 30 1 900 0 fresh)
  = Normal ([stamped 0 480 640 (640, 480) "0:0"], 900) /\
  fst (run half_minute) = Normal tt /\
  files (snd (run half_minute))
  = <[thumbnail := VCat [HCat [stamped 0 480 640 (640, 480) "0:0"]]]> ∅.
Proof.
  assert (files fresh !! thumbnail_of "/videos/clip.mp4" "/videos" = None) as H1
    by (vm_compute; reflexivity).
  assert (isOpened half_minute = true) as H2 by reflexivity.
  assert (CAP_PROP_FPS half_minute = 30%Q) as H3 by reflexivity.
  assert (CAP_PROP_FRAME_COUNT half_minute = 900%Q) as H4 by reflexivity.
  repeat (split; [assumption |]).
  destruct (half_minute_video_one_sample (fun _ => half_minute)
              "/videos/clip.mp4" "/videos" fresh H1 H2 H3 H4)
    as (_ & _ & _ & Hplan & Hseeks & Hreads & Hframes & Hgrid).
  split; [exact Hplan |]. split; [exact Hseeks |]. split; [exact Hreads |].
  split; [exact Hframes |].
  exact (Hgrid (Decoded (480, 640, 3) 0) (stamped 0 480 640 (640, 480) "0:0")
               (HCat [stamped 0 480 640 (640, 480) "0:0"])
               (VCat [HCat [stamped 0 480 640 (640, 480) "0:0"]])
               eq_refl eq_refl eq_refl eq_refl eq_refl).
Defined.

Lemma sampling_visits_every_slot_witness :
  0 <= 2 /\ 0 <= 2 /\
  exists rows current_frame w',
    sampling short_last_row 30 2 2 1800 "/videos" "clip" fresh
    = (Normal (rows, current_frame), w') /\
    seeks (cap_calls w') = [0; 1800; 3600; 5400] /\
    reads (cap_calls w') = [true; true; true; false] /\
    current_frame = 7200 /\ progress w' = 4.
Proof.
  assert (0 <= 2) as H1 by lia.
  split; [exact H1 |]. split; [exact H1 |].
  destruct (sampling_visits_every_slot short_last_row 30 2 1800 "/videos" "clip"
              2 fresh H1 H1) as (Hfalls & Hfacts & _).
  destruct Hfalls as (rows & current_frame & w' & Hrun).
  { exact reference_hconcat_accepts. }
  { intros pos Hpos. vm_compute in Hpos.
    repeat (apply elem_of_cons in Hpos as [-> | Hpos]; [vm_compute; reflexivity |]).
    now apply elem_of_nil in Hpos. }
  exists rows, current_frame, w'. split; [exact Hrun |].
  destruct (Hfacts rows current_frame w' Hrun)
    as (Hcalls & Hseeks & Hreads & _ & _ & Hcf & Hp & _).
  rewrite Hcalls. cbn [cap_calls fresh app].
  rewrite Hseeks, Hreads, Hcf, Hp. repeat split; vm_compute; reflexivity.
Defined.

End Scenarios.

(** ** Binary64 cross-checks

    The quotients of the examples, computed with one rounding to binary64
    per operation, give the integers of the rational model. *)

Section Binary64Checks.
Import Binary64.

(** [int(target_width / (w / h))] for the frames of the examples, each
    [w] pixels wide in a grid of [w / target_width] columns. *)
Lemma binary64_target_heights :
  Forall (fun '(target_width, w, h) =>
            target_height target_width w h = Some (target_width * h / w) /\
            target_size (inject_Z w) (w / target_width) (h, w, 3)
            = Ok (target_width, target_width * h / w))
         [(426, 1280, 720); (400, 1200, 300); (400, 1200, 305);
          (400, 800, 200); (400, 800, 203); (640, 640, 480)].
Proof. repeat constructor; vm_compute; reflexivity. Qed.

(** [total_frames / (fps * 60)] for the videos of the examples: half a
    minute, four minutes and six minutes, exactly. *)
Lemma binary64_video_lengths :
  Qred <$> to_Q (video_length 900 30) = Some (1 # 2) /\
  Qred <$> to_Q (video_length 7200 30) = Some 4%Q /\
  Qred <$> to_Q (video_length 10800 30) = Some 6%Q.
Proof. repeat split; vm_compute; reflexivity. Qed.

(** The target 0.4 (the double nearest to 2/5): [int(0.4 ** 0.5) = 0],
    taking the power as the correctly rounded square root, and
    [round(0.4 / 1) = 0]. *)
Lemma binary64_small_target :
  let target := div (of_int 2) (of_int 5) in
  to_int (sqrt target) = Some (isqrt (2 # 5)) /\
  round (div target (of_int 1)) = Some (partner (2 # 5) 1) /\
  partner (2 # 5) 1 = 0.
Proof. repeat split; vm_compute; reflexivity. Qed.

End Binary64Checks.

(** * Further properties *)

(** ** GridSizer: every target that is not negative *)

Section SizerFacts.

Lemma inject_Z_ge_1 (i : Z) : 1 <= i -> (1 <= inject_Z i)%Q.
Proof. intros H. change 1%Q with (inject_Z 1). now rewrite <- Zle_Qle. Qed.

Lemma quotient_nonneg (target : Q) (i : Z) :
  (0 <= target)%Q -> 1 <= i -> (0 <= target / inject_Z i)%Q.
Proof.
  intros Ht Hi. pose proof (inject_Z_ge_1 i Hi).
  apply Qle_shift_div_l; lra.
Qed.

Lemma partner_nonneg (target : Q) (i : Z) :
  (0 <= target)%Q -> 1 <= i -> 0 <= partner target i.
Proof.
  intros Ht Hi. unfold partner.
  pose proof (round_floor (target / inject_Z i)) as [H _].
  pose proof (floor_nonneg _ (quotient_nonneg target i Ht Hi)). lia.
Qed.

(** The product of a candidate and its partner is within half the
    candidate of the target. *)
Lemma partner_product (target : Q) (i : Z) :
  1 <= i ->
  (inject_Z (i * partner target i) - inject_Z i * (1 # 2) <= target)%Q /\
  (target <= inject_Z (i * partner target i) + inject_Z i * (1 # 2))%Q.
Proof.
  intros Hi. pose proof (inject_Z_ge_1 i Hi) as HI.
  pose proof (round_near (target / inject_Z i)) as [Hlo Hhi].
  fold (partner target i) in Hlo, Hhi.
  assert (target == target / inject_Z i * inject_Z i)%Q as E by (field; lra).
  rewrite inject_Z_mult.
  set (x := (target / inject_Z i)%Q) in *.
  set (J := inject_Z (partner target i)) in *.
  set (I := inject_Z i) in *.
  split.
  - apply Qle_trans with (x * I)%Q; [| rewrite E; apply Qle_refl].
    assert ((J - (1 # 2)) * I <= x * I)%Q as H
      by (apply Qmult_le_compat_r; lra).
    eapply Qle_trans; [| exact H]. apply Qle_lteq. right. ring.
  - apply Qle_trans with (x * I)%Q; [rewrite E at 1; apply Qle_refl |].
    assert (x * I <= (J + (1 # 2)) * I)%Q as H
      by (apply Qmult_le_compat_r; lra).
    eapply Qle_trans; [exact H |]. apply Qle_lteq. right. ring.
Qed.

(** What the search returns for a target that is not negative: the pair
    of a candidate of the range whose gap is minimal over the range. *)
Lemma sizer_result (target : Q) :
  (0 <= target)%Q ->
  exists i : Z,
    1 <= i <= isqrt target + 1 /\
    find_closest_numbers target = Ok (Some (pair_of target i)) /\
    (forall i', 1 <= i' <= isqrt target + 1 -> gap target i <= gap target i').
Proof.
  intros Ht. pose proof (isqrt_spec target Ht) as (Hk & _ & _).
  assert (sizer_range target <> []) as Hne.
  { unfold sizer_range. rewrite seqZ_cons by lia. discriminate. }
  destruct (loop_first_best target (sizer_range target) Hne)
    as (n & i & Hn & Hst & Hmin & _).
  unfold sizer_range in Hn, Hmin.
  apply lookup_seqZ in Hn as [Hi Hnlt].
  exists i. split; [lia |]. split.
  - unfold find_closest_numbers.
    assert (Qle_bool 0 target = true) as -> by now apply Qle_bool_iff.
    now rewrite Hst.
  - intros i' Hi'. apply Hmin, elem_of_seqZ. lia.
Qed.

End SizerFacts.

(** X1. For every target that is not negative, [find_closest_numbers]
    returns a pair, never [None]: the range of the loop has at least the
    candidate 1. The pair has at least one column, and its rows are
    between zero and the columns. *)
Theorem sizer_returns_a_pair (target : Q) :
  (0 <= target)%Q ->
  exists columns rows_n : Z,
    find_closest_numbers target = Ok (Some (columns, rows_n)) /\
    1 <= columns /\ 0 <= rows_n <= columns.
Proof.
  intros Ht. destruct (sizer_result target Ht) as (i & Hi & Hres & _).
  pose proof (partner_nonneg target i Ht ltac:(lia)) as Hj.
  exists (Z.max i (partner target i)), (Z.min i (partner target i)).
  split; [exact Hres | lia].
Qed.

Lemma sizer_returns_a_pair_witness :
  (0 <= 2 # 5)%Q /\
  exists columns rows_n : Z,
    find_closest_numbers (2 # 5) = Ok (Some (columns, rows_n)) /\
    1 <= columns /\ 0 <= rows_n <= columns.
Proof.
  assert (0 <= 2 # 5)%Q as H by (unfold Qle; simpl; lia).
  split; [exact H | exact (sizer_returns_a_pair (2 # 5) H)].
Defined.

(** X2. The number of cells of the grid is close to the target: for a
    target [d >= 0] the product [columns * rows] differs from [d] by at
    most half of [floor(sqrt d) + 1]. *)
Theorem sizer_cells_near_target (d : Q) :
  (0 <= d)%Q ->
  exists columns rows_n : Z,
    find_closest_numbers d = Ok (Some (columns, rows_n)) /\
    (inject_Z (columns * rows_n) - inject_Z (isqrt d + 1) * (1 # 2) <= d)%Q /\
    (d <= inject_Z (columns * rows_n) + inject_Z (isqrt d + 1) * (1 # 2))%Q.
Proof.
  intros Hd. destruct (sizer_result d Hd) as (i & Hi & Hres & _).
  exists (Z.max i (partner d i)), (Z.min i (partner d i)).
  split; [exact Hres |].
  assert (Z.max i (partner d i) * Z.min i (partner d i) = i * partner d i) as ->.
  { destruct (Z.max_spec i (partner d i)) as [[? ->] | [? ->]];
      destruct (Z.min_spec i (partner d i)) as [[? ->] | [? ->]]; lia. }
  destruct (partner_product d i ltac:(lia)) as [Hlo Hhi].
  assert (inject_Z i <= inject_Z (isqrt d + 1))%Q as Hle
    by (rewrite <- Zle_Qle; lia).
  split; lra.
Qed.

Lemma sizer_cells_near_target_witness :
  (0 <= 10)%Q /\
  exists columns rows_n : Z,
    find_closest_numbers 10 = Ok (Some (columns, rows_n)) /\
    (inject_Z (columns * rows_n) - inject_Z (isqrt 10 + 1) * (1 # 2) <= 10)%Q /\
    (10 <= inject_Z (columns * rows_n) + inject_Z (isqrt 10 + 1) * (1 # 2))%Q.
Proof.
  assert (0 <= 10)%Q as H by (unfold Qle; simpl; lia).
  split; [exact H | exact (sizer_cells_near_target 10 H)].
Defined.

Section SquareFacts.

Lemma round_inject_Z (z : Z) : Py.round (inject_Z z) = z.
Proof.
  unfold Py.round. rewrite Qfloor_Z.
  destruct (Qcompare_spec (inject_Z z - inject_Z z) (1 # 2)) as [H | H | H];
    [lra | reflexivity | lra].
Qed.

Lemma isqrt_square (k : Z) : 0 <= k -> isqrt (inject_Z (k * k)) = k.
Proof. intros Hk. unfold isqrt. rewrite Qfloor_Z. now apply Z.sqrt_square. Qed.

Lemma partner_square (k : Z) : 1 <= k -> partner (inject_Z (k * k)) k = k.
Proof.
  intros Hk. unfold partner.
  transitivity (Py.round (inject_Z k)); [| apply round_inject_Z].
  apply round_comp. pose proof (inject_Z_ge_1 k Hk).
  rewrite inject_Z_mult. field. lra.
Qed.

End SquareFacts.

(** X3. A target that is a perfect square [k * k], [k >= 1], gives the
    square grid [(k, k)]. *)
Theorem sizer_square_target (k : Z) :
  1 <= k -> find_closest_numbers (inject_Z (k * k)) = Ok (Some (k, k)).
Proof.
  intros Hk. set (d := inject_Z (k * k)).
  assert (0 <= d)%Q as Hd.
  { subst d. change 0%Q with (inject_Z 0). rewrite <- Zle_Qle. nia. }
  destruct (sizer_result d Hd) as (i & Hi & Hres & Hmin).
  subst d. rewrite isqrt_square in Hi, Hmin by lia.
  assert (partner (inject_Z (k * k)) i = i) as Hj.
  { specialize (Hmin k ltac:(lia)). unfold gap in Hmin.
    rewrite partner_square in Hmin by lia. lia. }
  assert (i = k) as ->.
  { destruct (partner_product (inject_Z (k * k)) i ltac:(lia)) as [Hlo Hhi].
    rewrite Hj in Hlo, Hhi.
    assert (inject_Z (2 * (i * i)) <= inject_Z (2 * (k * k) + i))%Q as H1.
    { rewrite inject_Z_plus, !(inject_Z_mult 2). change (inject_Z 2) with 2%Q. lra. }
    assert (inject_Z (2 * (k * k)) <= inject_Z (2 * (i * i) + i))%Q as H2.
    { rewrite inject_Z_plus, !(inject_Z_mult 2). change (inject_Z 2) with 2%Q. lra. }
    rewrite <- Zle_Qle in H1, H2. nia. }
  rewrite Hres. unfold pair_of. rewrite Hj.
  now rewrite Z.max_id, Z.min_id.
Qed.

Lemma sizer_square_target_witness :
  1 <= 7 /\ find_closest_numbers (inject_Z (7 * 7)) = Ok (Some (7, 7)).
Proof.
  assert (1 <= 7) as H by lia.
  split; [exact H | exact (sizer_square_target 7 H)].
Defined.

(** ** The plan (thumb.py, lines 42-51) *)

Section PlanFacts.

Lemma video_length_ge_1 (fps : Q) (total_frames : Z) :
  (1 <= video_length_minutes fps total_frames)%Q.
Proof.
  unfold video_length_minutes.
  destruct (Qle_bool 1 _) eqn:E; [now apply Qle_bool_iff | apply Qle_refl].
Qed.

(** The plan of any video: a grid with at least one row and no more rows
    than columns, and the interval [max(1, total_frames // cells)]. *)
Lemma grid_plan_ok (fps : Q) (total_frames : Z) :
  exists columns rows_n : Z,
    1 <= rows_n <= columns /\
    find_closest_numbers (video_length_minutes fps total_frames)
    = Ok (Some (columns, rows_n)) /\
    grid_plan fps total_frames
    = Ok (columns, rows_n, Z.max 1 (total_frames / (columns * rows_n))).
Proof.
  set (d := video_length_minutes fps total_frames).
  pose proof (video_length_ge_1 fps total_frames) as Hd. fold d in Hd.
  assert (0 <= d)%Q as Hd0 by lra.
  pose proof (isqrt_spec d Hd0) as (Hk & _ & _).
  destruct (sizer_result d Hd0) as (i & Hi & Hres & Hmin).
  assert (1 <= partner d i) as Hj.
  { apply best_partner_positive; [exact Hd | lia |]. apply (Hmin 1). lia. }
  exists (Z.max i (partner d i)), (Z.min i (partner d i)).
  split; [lia |]. split; [exact Hres |].
  unfold grid_plan. fold d. rewrite Hres. unfold pair_of.
  destruct (Z.eqb_spec (Z.max i (partner d i) * Z.min i (partner d i)) 0) as [E | _];
    [nia | reflexivity].
Qed.

End PlanFacts.

(** X4. Planning never raises. For a frame rate that is not zero the
    plan is a grid with [1 <= rows <= columns] and a frame interval
    [max(1, total_frames // (columns * rows))], which is at least 1. *)
Theorem plan_never_fails (fps : Q) (total_frames : Z) :
  Qeq_bool fps 0 = false ->
  exists columns rows_n frame_interval : Z,
    grid_plan fps total_frames = Ok (columns, rows_n, frame_interval) /\
    1 <= rows_n <= columns /\
    frame_interval = Z.max 1 (total_frames / (columns * rows_n)) /\
    1 <= frame_interval.
Proof.
  intros _. destruct (grid_plan_ok fps total_frames) as (c & r & Hcr & _ & Hplan).
  exists c, r, (Z.max 1 (total_frames / (c * r))).
  split; [exact Hplan |]. split; [exact Hcr |]. split; [reflexivity | lia].
Qed.

Lemma plan_never_fails_witness :
  Qeq_bool (2997 # 100) 0 = false /\
  exists columns rows_n frame_interval : Z,
    grid_plan (2997 # 100) 21578 = Ok (columns, rows_n, frame_interval) /\
    1 <= rows_n <= columns /\
    frame_interval = Z.max 1 (21578 / (columns * rows_n)) /\
    1 <= frame_interval.
Proof.
  assert (Qeq_bool (2997 # 100) 0 = false) as H by reflexivity.
  split; [exact H | exact (plan_never_fails (2997 # 100) 21578 H)].
Defined.

(** X5. The frame indices of a plan. When the video has at least as many
    frames as the grid has cells, every sample index [k * frame_interval]
    lies inside the video. When it has fewer, the interval is 1 and the
    last index is at or past the end of the video. *)
Theorem sample_indices_and_video_length (fps : Q) (total_frames : Z)
    (columns rows_n frame_interval : Z) :
  grid_plan fps total_frames = Ok (columns, rows_n, frame_interval) ->
  0 <= total_frames ->
  (columns * rows_n <= total_frames ->
   forall k, 0 <= k < columns * rows_n ->
             0 <= k * frame_interval < total_frames) /\
  (total_frames < columns * rows_n ->
   frame_interval = 1 /\
   total_frames <= (columns * rows_n - 1) * frame_interval).
Proof.
  intros Hplan Htotal.
  destruct (grid_plan_ok fps total_frames) as (c & r & Hcr & _ & Hplan').
  rewrite Hplan' in Hplan. injection Hplan as <- <- <-.
  assert (0 < c * r) as Hcells by nia.
  set (cells := c * r) in *.
  pose proof (Z.mul_div_le total_frames cells Hcells) as Hq.
  split.
  - intros Hle k Hk.
    assert (1 <= total_frames / cells) as Hq1.
    { apply Z.div_le_lower_bound; lia. }
    rewrite Z.max_r by lia. split; [nia |].
    assert (k * (total_frames / cells) <= (cells - 1) * (total_frames / cells))
      by nia.
    nia.
  - intros Hlt. rewrite Z.div_small by lia. split; [reflexivity | lia].
Qed.

Lemma sample_indices_and_video_length_witness :
  grid_plan 30 10800 = Ok (3, 2, 1800) /\ 0 <= 10800 /\
  (3 * 2 <= 10800 ->
   forall k, 0 <= k < 3 * 2 -> 0 <= k * 1800 < 10800) /\
  (10800 < 3 * 2 -> 1800 = 1 /\ 10800 <= (3 * 2 - 1) * 1800).
Proof.
  assert (grid_plan 30 10800 = Ok (3, 2, 1800)) as H1 by reflexivity.
  assert (0 <= 10800) as H2 by lia.
  split; [exact H1 |]. split; [exact H2 |].
  exact (sample_indices_and_video_length 30 10800 3 2 1800 H1 H2).
Defined.

(** ** [check_frame_dimensions] (thumb.py, lines 8-11) *)

Lemma check_frame_dimensions_iff `{cv : Cv2} (frames : list Image) :
  check_frame_dimensions frames = true <->
  frames <> [] /\ forall a b, a ∈ frames -> b ∈ frames -> shape a = shape b.
Proof.
  unfold check_frame_dimensions. rewrite bool_decide_eq_true. split.
  - intros Hsize. split.
    + intros ->. cbn in Hsize. rewrite size_empty in Hsize. discriminate.
    + intros a b Ha Hb. apply size_1_elem_of in Hsize as [s Hs].
      assert (forall i, i ∈ frames -> shape i = s) as Hall.
      { intros i Hi. apply (elem_of_singleton (C := gset (Z * Z * Z))).
        rewrite <- Hs. apply elem_of_list_to_set, list_elem_of_fmap. now exists i. }
      now rewrite (Hall a Ha), (Hall b Hb).
  - intros [Hne Hall]. destruct frames as [| first rest]; [congruence |].
    assert ((list_to_set (shape <$> first :: rest) : gset (Z * Z * Z))
            = {[shape first]}) as ->; [| apply size_singleton].
    apply set_eq. intros s.
    rewrite elem_of_list_to_set, list_elem_of_fmap, elem_of_singleton. split.
    + intros (i & -> & Hi). apply Hall; [exact Hi | apply list_elem_of_here].
    + intros ->. exists first. split; [reflexivity | apply list_elem_of_here].
Qed.

(** X6. [check_frame_dimensions] holds exactly for a list that is not
    empty and whose frames all have one shape (height, width and channel
    count); on the empty list it is false. *)
Theorem check_frame_dimensions_spec `{cv : Cv2} (frames : list Image) :
  check_frame_dimensions frames = true <->
  frames <> [] /\ forall a b, a ∈ frames -> b ∈ frames -> shape a = shape b.
Proof. apply check_frame_dimensions_iff. Qed.

(** ** The target size: when it raises *)

(** X7. The size computation of lines 71-75 raises ZeroDivisionError
    exactly when the frame has height 0 or width 0 or the grid has no
    column, and in every other case it gives a size whose width is at
    least 400. *)
Theorem target_size_raises_on_zero (cap_width : Q) (columns h w ch : Z) :
  (target_size cap_width columns (h, w, ch) = Err ZeroDivisionError <->
   h = 0 \/ w = 0 \/ columns = 0) /\
  (h <> 0 -> w <> 0 -> columns <> 0 ->
   exists target_width target_height,
     target_size cap_width columns (h, w, ch) = Ok (target_width, target_height) /\
     400 <= target_width).
Proof.
  assert (h <> 0 -> w <> 0 -> (inject_Z w / inject_Z h == 0)%Q -> False) as Hratio.
  { intros Hh Hw E.
    assert (~ inject_Z h == 0)%Q as Qh.
    { intros E'. unfold Qeq in E'. cbn in E'. lia. }
    assert (inject_Z w == 0)%Q as E'.
    { rewrite <- (Qmult_div_r (inject_Z w) (inject_Z h) Qh), E. ring. }
    unfold Qeq in E'. cbn in E'. lia. }
  unfold target_size, target_width.
  destruct (Z.eqb_spec h 0) as [-> | Hh].
  { split; [split; [auto | reflexivity] | congruence]. }
  destruct (Z.eqb_spec columns 0) as [-> | Hc].
  { split; [split; [auto | reflexivity] | congruence]. }
  destruct (Qeq_bool (inject_Z w / inject_Z h) 0) eqn:E.
  - apply Qeq_bool_eq in E.
    destruct (Z.eq_dec w 0) as [-> | Hw]; [| destruct (Hratio Hh Hw E)].
    split; [split; [auto | reflexivity] | congruence].
  - split.
    + split; [discriminate |]. intros [-> | [-> | ->]]; try congruence.
      exfalso. assert (Qeq_bool (inject_Z 0 / inject_Z h) 0 = true) as E'.
      { apply Qeq_eq_bool. unfold Qdiv. change (inject_Z 0) with 0%Q. ring. }
      congruence.
    + intros _ _ _. eexists _, _. split; [reflexivity | lia].
Qed.

(** ** The timestamp: what [timedelta] receives *)

Section TimestampFacts.

Lemma floor_quotient (a n : Z) :
  0 < n -> Qfloor (inject_Z a / inject_Z n) = a / n.
Proof.
  intros Hn. pose proof (inject_Z_pos n Hn) as Qn.
  pose proof (Z.mul_div_le a n Hn) as Hlo.
  pose proof (Z.mul_succ_div_gt a n Hn) as Hhi.
  apply floor_unique.
  - apply Qle_shift_div_l; [exact Qn |].
    rewrite <- inject_Z_mult, <- Zle_Qle. lia.
  - apply Qlt_shift_div_r; [exact Qn |].
    change 1%Q with (inject_Z 1).
    rewrite <- inject_Z_plus, <- inject_Z_mult, <- Zlt_Qlt. lia.
Qed.

(** The microseconds [timedelta] counts for the quotient and remainder
    of a frame index by an integral frame rate. *)
Lemma overlay_microseconds (n cf : Z) :
  0 < n ->
  Py.round (fst (Py.divmod cf (inject_Z n)) * 1000000
            + snd (Py.divmod cf (inject_Z n)) * 1000)
  = cf / n * 1000000 + cf mod n * 1000.
Proof.
  intros Hn. unfold Py.divmod. cbn [fst snd].
  rewrite floor_quotient by exact Hn.
  rewrite <- (round_inject_Z (cf / n * 1000000 + cf mod n * 1000)).
  apply round_comp.
  rewrite Z.mod_eq by lia.
  rewrite inject_Z_plus, !inject_Z_mult.
  assert (inject_Z (cf - n * (cf / n)) == inject_Z cf - inject_Z n * inject_Z (cf / n))%Q
    as ->.
  { rewrite <- inject_Z_mult. unfold Qeq, Qminus, Qplus, Qopp, inject_Z. cbn. lia. }
  change (inject_Z 1000000) with 1000000%Q. change (inject_Z 1000) with 1000%Q.
  ring.
Qed.

End TimestampFacts.

(** X8. For an integral frame rate [n] between 1 and 1000, the text of
    lines 79-86 is the string of a timedelta of [cf // n] whole seconds
    and [1000 * (cf mod n)] microseconds, less its last four characters:
    the fraction counts the frames left over by the division, each as one
    millisecond. *)
Theorem overlay_fraction_counts_frames (n cf : Z) :
  1 <= n <= 1000 ->
  timestamp_text cf (inject_Z n)
  = Str.drop_last 4
      (Timedelta.str {| Timedelta.days := cf / n / 86400;
                        Timedelta.seconds := (cf / n) mod 86400;
                        Timedelta.microseconds := 1000 * (cf mod n) |}).
Proof.
  intros Hn. unfold timestamp_text.
  destruct (Py.divmod cf (inject_Z n)) as [s ms] eqn:E.
  pose proof (overlay_microseconds n cf ltac:(lia)) as Hus.
  rewrite E in Hus. cbn [fst snd] in Hus.
  unfold Timedelta.make. rewrite Hus.
  pose proof (Z.mod_pos_bound cf n ltac:(lia)) as Hm.
  generalize dependent (cf mod n). intros m Hus Hm.
  generalize dependent (cf / n). intros q Hus.
  assert ((q * 1000000 + m * 1000) / 1000000 = q) as ->.
  { rewrite Z.div_add_l by lia. rewrite Z.div_small by lia. lia. }
  assert ((q * 1000000 + m * 1000) mod 1000000 = 1000 * m) as ->.
  { rewrite Z.add_comm, Z_mod_plus_full. rewrite Z.mod_small by lia. lia. }
  reflexivity.
Qed.

Lemma overlay_fraction_counts_frames_witness :
  1 <= 30 <= 1000 /\
  timestamp_text 1815 (inject_Z 30)
  = Str.drop_last 4
      (Timedelta.str {| Timedelta.days := 1815 / 30 / 86400;
                        Timedelta.seconds := (1815 / 30) mod 86400;
                        Timedelta.microseconds := 1000 * (1815 mod 30) |}).
Proof.
  assert (1 <= 30 <= 1000) as H by lia.
  split; [exact H | exact (overlay_fraction_counts_frames 30 1815 H)].
Defined.

(** ** ThumbnailPipeline: how a run ends *)

Section EndingFacts.
Context `{cv : Cv2}.
Variable disk : string -> VideoCapture.
Variables video_path output_folder : string.

Lemma release_not_in_slot_calls (cap : VideoCapture) (ps : list Z) :
  CapRelease ∉ slot_calls cap ps.
Proof.
  unfold slot_calls. induction ps as [| p ps IH]; [apply not_elem_of_nil |].
  cbn. rewrite !not_elem_of_cons. repeat split; [discriminate | discriminate | exact IH].
Qed.

Ltac early_exit :=
  unfold ends; cbn;
  split; [reflexivity |]; split; [reflexivity |]; split; [reflexivity |];
  exists []; split; [apply not_elem_of_nil |];
  split; [reflexivity | rewrite ?app_nil_r; reflexivity].

(** The early exits, by the checks of lines 19, 27 and 37. *)
Lemma early_run (w : World) (e : Ending) :
  early_ending w (disk video_path) (thumbnail_of video_path output_folder) = Some e ->
  ends video_path (thumbnail_of video_path output_folder) w
       (create_thumbnail_grid disk video_path output_folder w) e.
Proof.
  unfold early_ending, create_thumbnail_grid. rewrite bind_run. unfold path_exists.
  change (Path.join output_folder
            (fst (Path.splitext (Path.basename video_path)) +:+ "_thumbnail.png"))
    with (thumbnail_of video_path output_folder).
  destruct (bool_decide _).
  { intros [= <-]. early_exit. }
  destruct (isOpened (disk video_path)); cbn [negb].
  2:{ intros [= <-]. early_exit. }
  unfold try_except, grid_body.
  destruct (Qeq_bool _ 0 || (_ =? 0)); [| discriminate].
  intros [= <-]. early_exit.
Qed.

(** The handler of the outer [try], with what it prints. *)
Lemma outer_handler_lines (msg : string) (w : World) :
  exists w',
    (print ("OpenCV Error: " +:+ msg);;
     print ("Skipping video: " +:+ video_path);;
     save_black_image output_folder
                      (fst (Path.splitext (Path.basename video_path)));;
     cap_release;;
     return_ : M unit) w = (Returned, w') /\
    files w' = <[thumbnail_of video_path output_folder := zeros (1, 1, 3)]> (files w) /\
    stdout w' = stdout w ++ ["OpenCV Error: " +:+ msg;
                             "Skipping video: " +:+ video_path] /\
    cap_calls w' = cap_calls w ++ [CapRelease].
Proof.
  eexists. split; [reflexivity |]. cbn.
  split; [reflexivity |]. split; [| reflexivity]. now rewrite <- app_assoc.
Qed.

(** Every run ends in one of the nine ways: the early one that the
    checks select, when they select one, and otherwise one that follows
    the sampling; never by a [cv2.error] that escapes. *)
Lemma run_classified (w : World) :
  exists e : Ending,
    ends video_path (thumbnail_of video_path output_folder) w
         (create_thumbnail_grid disk video_path output_folder w) e /\
    (forall msg, e <> Escaped (cv2_error msg)) /\
    match early_ending w (disk video_path)
                       (thumbnail_of video_path output_folder) with
    | Some early => e = early
    | None => ending_samples e = true
    end.
Proof.
  destruct (early_ending w (disk video_path)
                         (thumbnail_of video_path output_folder)) as [e |] eqn:Hearly.
  { exists e. split; [now apply early_run |]. split; [| reflexivity].
    intros msg ->. unfold early_ending in Hearly.
    repeat destruct (_ : bool) in Hearly; discriminate. }
  unfold early_ending in Hearly.
  destruct (bool_decide (is_Some (files w !! thumbnail_of video_path output_folder)))
    eqn:Hex; [discriminate |].
  apply bool_decide_eq_false in Hex.
  assert (files w !! thumbnail_of video_path output_folder = None) as Hnone.
  { destruct (files w !! _); [exfalso; apply Hex; eauto | reflexivity]. }
  destruct (isOpened (disk video_path)) eqn:Hopen; [| discriminate].
  cbn [negb] in Hearly.
  destruct (Qeq_bool (CAP_PROP_FPS (disk video_path)) 0) eqn:Hfps; [discriminate |].
  destruct (Z.eqb_spec (Py.int (CAP_PROP_FRAME_COUNT (disk video_path))) 0)
    as [| Htotal]; [discriminate |].
  clear Hearly.
  destruct (grid_plan_ok (CAP_PROP_FPS (disk video_path))
                         (Py.int (CAP_PROP_FRAME_COUNT (disk video_path))))
    as (c & r & _ & _ & Hplan).
  rewrite (pipeline_run disk video_path output_folder w c r _
             Hnone Hopen Hfps Htotal Hplan).
  unfold try_except. rewrite bind_run.
  destruct (sampling _ _ c r _ output_folder _ w) as [flow w2] eqn:Hsamp.
  unfold sampling in Hsamp. apply rows_loop in Hsamp. cbv zeta in Hsamp.
  destruct flow as [[rows cf] | | e].
  - destruct Hsamp as (Hf & Hs & _ & Hcalls & _).
    pose proof (finish_run output_folder
                  (fst (Path.splitext (Path.basename video_path))) rows w2) as Hfin.
    fold (thumbnail_of video_path output_folder) in Hfin.
    destruct (stackable rows).
    + destruct (vconcat rows) as [grid_image | [msg | |]].
      * destruct Hfin as (w3 & -> & Hf3 & Hs3 & Hc3).
        exists (Persisted grid_image). split; [| split; [discriminate | reflexivity]].
        repeat split; cbn; [congruence | rewrite app_nil_r; congruence |].
        eexists. split; [apply release_not_in_slot_calls |]. split; [discriminate |].
        rewrite Hc3, Hcalls, <- app_assoc. reflexivity.
      * destruct Hfin as (w3 & -> & Hf3 & Hs3 & Hc3).
        exists (VconcatFailed msg). split; [| split; [discriminate | reflexivity]].
        repeat split; cbn; [congruence | congruence |].
        eexists. split; [apply release_not_in_slot_calls |]. split; [discriminate |].
        rewrite Hc3, Hcalls, app_nil_r. reflexivity.
      * rewrite Hfin. exists (Escaped ZeroDivisionError).
        split; [| split; [discriminate | reflexivity]].
        repeat split; cbn; [congruence | rewrite app_nil_r; congruence |].
        eexists. split; [apply release_not_in_slot_calls |]. split; [discriminate |].
        rewrite Hcalls, app_nil_r. reflexivity.
      * rewrite Hfin. exists (Escaped TypeError).
        split; [| split; [discriminate | reflexivity]].
        repeat split; cbn; [congruence | rewrite app_nil_r; congruence |].
        eexists. split; [apply release_not_in_slot_calls |]. split; [discriminate |].
        rewrite Hcalls, app_nil_r. reflexivity.
    + destruct Hfin as (w3 & -> & Hf3 & Hs3 & Hc3).
      exists EmptyGrid. split; [| split; [discriminate | reflexivity]].
      repeat split; cbn; [congruence | congruence |].
      eexists. split; [apply release_not_in_slot_calls |]. split; [discriminate |].
      rewrite Hc3, Hcalls, <- app_assoc. reflexivity.
  - destruct Hsamp as (Hf & [msg Hs] & (sampled & Hc & Hnr)).
    exists (HconcatFailed msg). split; [| split; [discriminate | reflexivity]].
    repeat split; cbn; [exact Hf | exact Hs |].
    exists sampled. split; [exact Hnr |]. split; [discriminate |].
    now rewrite app_nil_r.
  - destruct Hsamp as (Hf & Hs & (sampled & Hc & Hnr)).
    destruct e as [msg | |].
    + destruct (outer_handler_lines msg w2) as (w3 & -> & Hf3 & Hs3 & Hc3).
      exists (LibraryFailed msg). split; [| split; [discriminate | reflexivity]].
      repeat split; cbn; [congruence | congruence |].
      exists sampled. split; [exact Hnr |]. split; [discriminate |].
      rewrite Hc3, Hc, <- app_assoc. reflexivity.
    + exists (Escaped ZeroDivisionError).
      split; [| split; [discriminate | reflexivity]].
      repeat split; cbn; [congruence | rewrite app_nil_r; congruence |].
      exists sampled. split; [exact Hnr |]. split; [discriminate |].
      now rewrite app_nil_r.
    + exists (Escaped TypeError).
      split; [| split; [discriminate | reflexivity]].
      repeat split; cbn; [congruence | rewrite app_nil_r; congruence |].
      exists sampled. split; [exact Hnr |]. split; [discriminate |].
      now rewrite app_nil_r.
Qed.

End EndingFacts.

Section RunTheorems.
Context `{cv : Cv2}.
Variable disk : string -> VideoCapture.
Variables video_path output_folder : string.

(** X9. Every run of [create_thumbnail_grid] ends in one of nine ways:
    the thumbnail exists, the video cannot be opened, the frame rate or
    the frame count is zero, the grid is written, the grid is empty, one
    of the three handlers of [cv2.error] runs, or an exception other
    than [cv2.error] escapes. Each way fixes how the function leaves,
    the image written to the thumbnail path (if any), the lines printed,
    and whether the capture is released after the seeks and reads. *)
Theorem every_run_ends (w : World) :
  exists e : Ending,
    ends video_path (thumbnail_of video_path output_folder) w
         (create_thumbnail_grid disk video_path output_folder w) e /\
    (forall msg, e <> Escaped (cv2_error msg)) /\
    match early_ending w (disk video_path)
                       (thumbnail_of video_path output_folder) with
    | Some early => e = early
    | None => ending_samples e = true
    end.
Proof. apply run_classified. Qed.

(** X10. When the thumbnail of a video exists, the run returns at once:
    it prints one line, leaves the folder as it is and makes no call on
    the capture. *)
Theorem existing_thumbnail_is_kept (w : World) (img : Image) :
  files w !! thumbnail_of video_path output_folder = Some img ->
  let run := create_thumbnail_grid disk video_path output_folder w in
  fst run = Returned /\
  files (snd run) = files w /\
  stdout (snd run)
  = stdout w ++ ["Thumbnail already exists for " +:+ video_path +:+ ". Skipping."] /\
  cap_calls (snd run) = cap_calls w.
Proof.
  intros Hsome run.
  assert (early_ending w (disk video_path) (thumbnail_of video_path output_folder)
          = Some SkippedExisting) as Hearly.
  { unfold early_ending. rewrite Hsome.
    now rewrite bool_decide_eq_true_2 by eauto. }
  destruct (early_run disk video_path output_folder w _ Hearly)
    as (Hflow & Hfiles & Hout & (sampled & _ & Hnil & Hcalls)).
  rewrite (Hnil eq_refl) in Hcalls. cbn in Hcalls. rewrite app_nil_r in Hcalls.
  subst run. repeat split; assumption.
Qed.

(** X11. A video that cannot be opened, or that reports a frame rate or
    a frame count of zero, gets no thumbnail: the run prints one line and
    returns, and the capture is released exactly when it had been
    opened. *)
Theorem rejected_video_writes_nothing (w : World) :
  files w !! thumbnail_of video_path output_folder = None ->
  isOpened (disk video_path) = false \/
  Qeq_bool (CAP_PROP_FPS (disk video_path)) 0 = true \/
  Py.int (CAP_PROP_FRAME_COUNT (disk video_path)) = 0 ->
  let run := create_thumbnail_grid disk video_path output_folder w in
  fst run = Returned /\
  files (snd run) = files w /\
  stdout (snd run)
  = stdout w ++
    [if isOpened (disk video_path)
     then "Error: FPS or total frames is zero for video: " +:+ video_path
     else "Error opening video file: " +:+ video_path] /\
  cap_calls (snd run)
  = cap_calls w ++ (if isOpened (disk video_path) then [CapRelease] else []).
Proof.
  intros Hnone Hrej run.
  assert (early_ending w (disk video_path) (thumbnail_of video_path output_folder)
          = Some (if isOpened (disk video_path) then ZeroMetadata else OpenFailed))
    as Hearly.
  { unfold early_ending. rewrite Hnone.
    rewrite bool_decide_eq_false_2 by (intros [? ?]; discriminate).
    destruct (isOpened (disk video_path)); [| reflexivity]. cbn [negb].
    destruct Hrej as [? | [-> | ->]]; [discriminate | reflexivity |].
    now rewrite orb_true_r. }
  destruct (early_run disk video_path output_folder w _ Hearly)
    as (Hflow & Hfiles & Hout & (sampled & _ & Hnil & Hcalls)).
  subst run. destruct (isOpened (disk video_path));
    rewrite (Hnil eq_refl) in Hcalls; repeat split; assumption.
Qed.

(** X12. A run changes the folder at the thumbnail path of its video at
    most: every other path holds what it held before. *)
Theorem run_touches_only_its_thumbnail (w : World) (path : string) :
  path <> thumbnail_of video_path output_folder ->
  files (snd (create_thumbnail_grid disk video_path output_folder w)) !! path
  = files w !! path.
Proof.
  intros Hne. destruct (run_classified disk video_path output_folder w)
    as (e & (_ & Hfiles & _) & _).
  rewrite Hfiles. destruct (ending_image e); [| reflexivity].
  now rewrite lookup_insert_ne.
Qed.

(** X13. A run never changes or removes a file that is in the folder:
    what a path holds before the run, it holds after it. *)
Theorem run_keeps_existing_files (w : World) (path : string) (img : Image) :
  files w !! path = Some img ->
  files (snd (create_thumbnail_grid disk video_path output_folder w)) !! path
  = Some img.
Proof.
  intros Hsome. destruct (run_classified disk video_path output_folder w)
    as (e & (_ & Hfiles & _) & _ & Hearly).
  rewrite Hfiles.
  destruct (decide (path = thumbnail_of video_path output_folder)) as [-> | Hne].
  - unfold early_ending in Hearly. rewrite Hsome in Hearly.
    rewrite bool_decide_eq_true_2 in Hearly by eauto. subst e. exact Hsome.
  - destruct (ending_image e); [| exact Hsome].
    now rewrite lookup_insert_ne.
Qed.

(** X14. No [cv2.error] leaves [create_thumbnail_grid]: whatever the
    reads, the resizes and the concatenations raise of that kind is
    caught by one of the three handlers. *)
Theorem no_cv2_error_escapes (w : World) (msg : string) :
  fst (create_thumbnail_grid disk video_path output_folder w)
  <> Raised (cv2_error msg).
Proof.
  destruct (run_classified disk video_path output_folder w)
    as (e & (Hflow & _) & Hok & _).
  rewrite Hflow. destruct e; cbn; try discriminate.
  intros [= ->]. now apply (Hok msg).
Qed.

(** X15. The calls of a run on the capture are seeks and reads, followed
    by at most one release, which is then the last call; a run that falls
    off the end of the function has released the capture. *)
Theorem release_is_last (w : World) :
  let run := create_thumbnail_grid disk video_path output_folder w in
  exists sampled tail,
    cap_calls (snd run) = cap_calls w ++ sampled ++ tail /\
    Forall (fun c => exists pos ret, c = CapSet pos \/ c = CapRead ret) sampled /\
    (tail = [] \/ tail = [CapRelease]) /\
    (fst run = Normal tt -> tail = [CapRelease]).
Proof.
  destruct (run_classified disk video_path output_folder w)
    as (e & (Hflow & _ & _ & (sampled & Hnr & _ & Hcalls)) & _).
  cbv zeta. exists sampled, (if ending_releases e then [CapRelease] else []).
  split; [exact Hcalls |]. split.
  - apply Forall_forall. intros c Hc. destruct c as [pos | ret |].
    + exists pos, true. now left.
    + exists 0, ret. now right.
    + contradiction.
  - split; [destruct (ending_releases e); auto |].
    rewrite Hflow. destruct e; cbn; discriminate || reflexivity.
Qed.

End RunTheorems.

Section RunWitnesses.
Import OpenCV Videos.

Lemma existing_thumbnail_is_kept_witness :
  files after_clean !! thumbnail_of "/videos/clip.mp4" "/videos"
  = Some (VCat [HCat [stamped 0 200 800 (400, 100) "0:0";
                      stamped 1800 200 800 (400, 100) "0:0"];
                HCat [stamped 3600 200 800 (400, 100) "0:0";
                      stamped 5400 200 800 (400, 100) "0:0"]]) /\
  let run := create_thumbnail_grid (fun _ => clean) "/videos/clip.mp4" "/videos"
                                   after_clean in
  fst run = Returned /\
  files (snd run) = files after_clean /\
  stdout (snd run)
  = stdout after_clean
    ++ ["Thumbnail already exists for " +:+ "/videos/clip.mp4" +:+ ". Skipping."] /\
  cap_calls (snd run) = cap_calls after_clean.
Proof.
  assert (files after_clean !! thumbnail_of "/videos/clip.mp4" "/videos"
          = Some (VCat [HCat [stamped 0 200 800 (400, 100) "0:0";
                              stamped 1800 200 800 (400, 100) "0:0"];
                        HCat [stamped 3600 200 800 (400, 100) "0:0";
                              stamped 5400 200 800 (400, 100) "0:0"]])) as H
    by (vm_compute; reflexivity).
  split; [exact H |].
  exact (existing_thumbnail_is_kept (fun _ => clean) "/videos/clip.mp4" "/videos"
           after_clean _ H).
Defined.

Lemma rejected_video_writes_nothing_witness :
  files fresh !! thumbnail_of "/videos/clip.mp4" "/videos" = None /\
  (isOpened no_rate = false \/
   Qeq_bool (CAP_PROP_FPS no_rate) 0 = true \/
   Py.int (CAP_PROP_FRAME_COUNT no_rate) = 0) /\
  fst (run no_rate) = Returned /\
  files (snd (run no_rate)) = files fresh /\
  cap_calls (snd (run no_rate)) = [CapRelease] /\
  fst (run closed) = Returned /\
  cap_calls (snd (run closed)) = [].
Proof.
  assert (files fresh !! thumbnail_of "/videos/clip.mp4" "/videos" = None) as H1
    by (vm_compute; reflexivity).
  assert (isOpened no_rate = false \/
          Qeq_bool (CAP_PROP_FPS no_rate) 0 = true \/
          Py.int (CAP_PROP_FRAME_COUNT no_rate) = 0) as H2
    by (right; left; reflexivity).
  assert (isOpened closed = false \/
          Qeq_bool (CAP_PROP_FPS closed) 0 = true \/
          Py.int (CAP_PROP_FRAME_COUNT closed) = 0) as H3
    by (left; reflexivity).
  split; [exact H1 |]. split; [exact H2 |].
  destruct (rejected_video_writes_nothing (fun _ => no_rate) "/videos/clip.mp4"
              "/videos" fresh H1 H2) as (Hflow & Hfiles & _ & Hcalls).
  destruct (rejected_video_writes_nothing (fun _ => closed) "/videos/clip.mp4"
              "/videos" fresh H1 H3) as (Hflow' & _ & _ & Hcalls').
  repeat split; assumption.
Defined.

Lemma run_touches_only_its_thumbnail_witness :
  "/videos/clip.mp4" <> thumbnail_of "/videos/clip.mp4" "/videos" /\
  files (snd (create_thumbnail_grid (fun _ => clean) "/videos/clip.mp4" "/videos"
                                    fresh)) !! "/videos/clip.mp4"
  = files fresh !! "/videos/clip.mp4".
Proof.
  assert ("/videos/clip.mp4" <> thumbnail_of "/videos/clip.mp4" "/videos") as H
    by (vm_compute; discriminate).
  split; [exact H |].
  exact (run_touches_only_its_thumbnail (fun _ => clean) "/videos/clip.mp4"
           "/videos" fresh "/videos/clip.mp4" H).
Defined.

Lemma run_keeps_existing_files_witness :
  files after_clean !! thumbnail
  = Some (VCat [HCat [stamped 0 200 800 (400, 100) "0:0";
                      stamped 1800 200 800 (400, 100) "0:0"];
                HCat [stamped 3600 200 800 (400, 100) "0:0";
                      stamped 5400 200 800 (400, 100) "0:0"]]) /\
  files (snd (create_thumbnail_grid (fun _ => short_last_row) "/videos/clip.mp4"
                                    "/videos" after_clean)) !! thumbnail
  = Some (VCat [HCat [stamped 0 200 800 (400, 100) "0:0";
                      stamped 1800 200 800 (400, 100) "0:0"];
                HCat [stamped 3600 200 800 (400, 100) "0:0";
                      stamped 5400 200 800 (400, 100) "0:0"]]).
Proof.
  assert (files after_clean !! thumbnail
          = Some (VCat [HCat [stamped 0 200 800 (400, 100) "0:0";
                              stamped 1800 200 800 (400, 100) "0:0"];
                        HCat [stamped 3600 200 800 (400, 100) "0:0";
                              stamped 5400 200 800 (400, 100) "0:0"]])) as H
    by (vm_compute; reflexivity).
  split; [exact H |].
  exact (run_keeps_existing_files (fun _ => short_last_row) "/videos/clip.mp4"
           "/videos" after_clean thumbnail _ H).
Defined.

End RunWitnesses.

(** ** GridAssembler: the rows that are built *)

Section RowsBuilt.
Context `{cv : Cv2}.
Variable cap : VideoCapture.
Variable fps : Q.
Variables columns frame_interval : Z.
Variables output_folder video_name : string.



End RowsBuilt.

Section RowsWitnesses.
Import OpenCV Videos.


End RowsWitnesses.

(** ** The contact sheet of a well-behaved video *)

Section SheetFacts.
Import OpenCV Sheet.







End SheetFacts.

Section UniformVideo.
Import OpenCV Sheet.
Variable cap : VideoCapture.
Variable frame : Z -> Img.
Variable fps : Q.
Variables columns rows_n frame_interval : Z.
Variables h w0 ch : Z.

Abbreviation cell_width :=
  (Z.max 400 (Qfloor (CAP_PROP_FRAME_WIDTH cap / inject_Z columns))) (only parsing).
Abbreviation cell_height := (cell_width * h / w0) (only parsing).
Abbreviation size := (cell_width, cell_height) (only parsing).

Hypothesis Hcolumns : 1 <= columns.
Hypothesis Hh : 0 < h.
Hypothesis Hw : 0 < w0.
Hypothesis Hheight : 0 < cell_height.
Hypothesis Hread :
  forall k, 0 <= k < rows_n * columns ->
    read_at cap (k * frame_interval) = Ok (Some (frame (k * frame_interval))) /\
    img_shape (frame (k * frame_interval)) = (h, w0, ch).







End UniformVideo.


Section SheetWitnesses.
Import OpenCV Videos.


End SheetWitnesses.

(** ** DirectoryWalker *)

Section WalkFacts.
Context `{cv : Cv2} {lw : Lower}.
Variable disk : string -> VideoCapture.

(** What any run leaves of the folder and of the output. *)
Lemma run_frame (video_path output_folder : string) (w : World) :
  let run := create_thumbnail_grid disk video_path output_folder w in
  (forall path img, files w !! path = Some img ->
                    files (snd run) !! path = Some img) /\
  (forall path, path <> thumbnail_of video_path output_folder ->
                files (snd run) !! path = files w !! path) /\
  (exists lines, stdout (snd run) = stdout w ++ lines) /\
  (forall msg, fst run <> Raised (cv2_error msg)).
Proof.
  destruct (run_classified disk video_path output_folder w)
    as (e & (Hflow & Hfiles & Hout & _) & Hok & Hearly).
  cbv zeta. repeat split.
  - intros path img Hsome. rewrite Hfiles.
    destruct (decide (path = thumbnail_of video_path output_folder)) as [-> | Hne].
    + unfold early_ending in Hearly. rewrite Hsome in Hearly.
      rewrite bool_decide_eq_true_2 in Hearly by eauto. subst e. exact Hsome.
    + destruct (ending_image e); [| exact Hsome]. now rewrite lookup_insert_ne.
  - intros path Hne. rewrite Hfiles.
    destruct (ending_image e); [| reflexivity]. now rewrite lookup_insert_ne.
  - eexists. exact Hout.
  - intros msg. rewrite Hflow. destruct e; cbn; try discriminate.
    intros [= ->]. now apply (Hok msg).
Qed.

Abbreviation finished directory :=
  (fun video_file : string => Path.join directory video_file +:+ " finished")
  (only parsing).

(** The loop of the walk over any list of file names. *)
Lemma walk_loop (directory : string) (video_files : list string) :
  forall (w : World) flow w',
    for_each video_files
      (fun video_file _ =>
         call_function
           (create_thumbnail_grid disk (Path.join directory video_file) directory);;
         print (Path.join directory video_file +:+ " finished"))
      tt w = (flow, w') ->
    (forall path img, files w !! path = Some img -> files w' !! path = Some img) /\
    (forall path, files w' !! path <> files w !! path ->
       exists video_file,
         video_file ∈ video_files /\
         path = thumbnail_of (Path.join directory video_file) directory) /\
    (exists lines,
       stdout w' = stdout w ++ lines /\
       (flow = Normal tt -> sublist (finished directory <$> video_files) lines)) /\
    (forall msg, flow <> Raised (cv2_error msg)).
Proof.
  induction video_files as [| f fs IH]; intros w flow w' Hrun.
  - cbn in Hrun. injection Hrun as <- <-. repeat split; auto.
    + intros path Hne. congruence.
    + exists []. rewrite app_nil_r. split; [reflexivity |]. intros _. constructor.
  - rewrite for_each_cons, bind_run in Hrun. unfold call_function in Hrun.
    pose proof (run_frame (Path.join directory f) directory w) as Hframe.
    cbv zeta in Hframe.
    destruct (create_thumbnail_grid disk (Path.join directory f) directory w)
      as [fl wr].
    cbn [fst snd] in Hframe.
    destruct Hframe as (Hkeep & Hother & [lines Hlines] & Hfl).
    assert ((exists e, fl = Raised e) \/
            for_each fs
              (fun video_file _ =>
                 call_function
                   (create_thumbnail_grid disk (Path.join directory video_file)
                                          directory);;
                 print (Path.join directory video_file +:+ " finished"))
              tt {| files := files wr;
                    stdout := stdout wr ++ [Path.join directory f +:+ " finished"];
                    cap_calls := cap_calls wr; position := position wr;
                    progress := progress wr |} = (flow, w')) as Hcase.
    { destruct fl as [u | | e]; [right; exact Hrun | right; exact Hrun | left; eauto]. }
    destruct Hcase as [[e ->] | Hrest].
    { injection Hrun as <- <-. repeat split; auto.
      - intros path Hne. exists f. split; [apply list_elem_of_here |].
        destruct (decide (path = thumbnail_of (Path.join directory f) directory))
          as [E | E]; [exact E | now rewrite Hother in Hne by exact E].
      - exists lines. split; [exact Hlines | discriminate]. }
    apply IH in Hrest as (Hkeep' & Honly' & (lines' & Hlines' & Hsub') & Hflow').
    cbn [files stdout] in *. repeat split.
    + intros path img Hsome. apply Hkeep', Hkeep, Hsome.
    + intros path Hne.
      destruct (decide (path = thumbnail_of (Path.join directory f) directory))
        as [E | E].
      * exists f. split; [apply list_elem_of_here | exact E].
      * rewrite <- (Hother path E) in Hne.
        destruct (Honly' path Hne) as (f' & Hin & Hp).
        exists f'. split; [now apply list_elem_of_further | exact Hp].
    + exists (lines ++ (Path.join directory f +:+ " finished") :: lines').
      split.
      * rewrite Hlines', Hlines, <- !app_assoc. reflexivity.
      * intros Hn. cbn [fmap list_fmap]. apply sublist_inserts_l.
        apply sublist_skip. now apply Hsub'.
    + exact Hflow'.
Qed.

Variable normpath : string -> string.
Variable listdir : string -> list string.
Variable directory : string.

Abbreviation walked w :=
  (process_videos_in_directory normpath listdir disk directory w) (only parsing).

(** X18. The walk over a directory never changes or removes a file that
    is there: what a path holds before the walk, it holds after it. *)
Theorem walk_keeps_existing_files (w : World) (path : string) (img : Image) :
  files w !! path = Some img ->
  files (snd (walked w)) !! path = Some img.
Proof.
  intros Hsome. unfold process_videos_in_directory.
  destruct (for_each _ _ tt w) as [flow w'] eqn:Hrun.
  apply walk_loop in Hrun as (Hkeep & _). now apply Hkeep.
Qed.

(** X19. The walk writes thumbnails only: a path whose content differs
    after the walk is the thumbnail path, in the normalised directory,
    of a listed file whose lower-cased name ends with one of the five
    video suffixes. *)
Theorem walk_writes_only_thumbnails (w : World) (path : string) :
  files (snd (walked w)) !! path <> files w !! path ->
  exists video_file,
    video_file ∈ listdir (normpath directory) /\
    is_video_file video_file = true /\
    path = thumbnail_of (Path.join (normpath directory) video_file)
                        (normpath directory).
Proof.
  intros Hne. unfold process_videos_in_directory in Hne.
  destruct (for_each _ _ tt w) as [flow w'] eqn:Hrun.
  apply walk_loop in Hrun as (_ & Honly & _).
  destruct (Honly path Hne) as (f & Hin & Hp).
  unfold video_files in Hin. apply list_elem_of_In, filter_In in Hin as [Hin Hvid].
  exists f. split; [now apply list_elem_of_In | split; assumption].
Qed.

(** X20. No [cv2.error] stops the walk: every one is handled inside
    the run of its video, and the walk goes on with the next file. The
    walk only adds lines to the output; when it falls off its end these
    lines contain, in the order of the listing, one line
    [<video_path> finished] for every video file, also for those whose
    run printed an error or skipped the video. *)
Theorem walk_reports_every_video (w : World) :
  let run := walked w in
  let video_directory := normpath directory in
  (forall msg, fst run <> Raised (cv2_error msg)) /\
  exists lines,
    stdout (snd run) = stdout w ++ lines /\
    (fst run = Normal tt ->
     sublist ((fun video_file => Path.join video_directory video_file +:+ " finished")
                <$> video_files (listdir video_directory))
             lines).
Proof.
  cbv zeta. unfold process_videos_in_directory.
  destruct (for_each _ _ tt w) as [flow w'] eqn:Hrun.
  apply walk_loop in Hrun as (_ & _ & Hlines & Hflow).
  split; assumption.
Qed.

End WalkFacts.

Section WalkWitnesses.
Import OpenCV Videos.

Lemma walk_keeps_existing_files_witness :
  files after_clean !! thumbnail
  = Some (VCat [HCat [stamped 0 200 800 (400, 100) "0:0";
                      stamped 1800 200 800 (400, 100) "0:0"];
                HCat [stamped 3600 200 800 (400, 100) "0:0";
                      stamped 5400 200 800 (400, 100) "0:0"]]) /\
  files (snd (process_videos_in_directory (lw := ascii_lower) (fun p => p) listing
                (fun _ => half_minute) "/videos" after_clean)) !! thumbnail
  = Some (VCat [HCat [stamped 0 200 800 (400, 100) "0:0";
                      stamped 1800 200 800 (400, 100) "0:0"];
                HCat [stamped 3600 200 800 (400, 100) "0:0";
                      stamped 5400 200 800 (400, 100) "0:0"]]).
Proof.
  assert (files after_clean !! thumbnail
          = Some (VCat [HCat [stamped 0 200 800 (400, 100) "0:0";
                              stamped 1800 200 800 (400, 100) "0:0"];
                        HCat [stamped 3600 200 800 (400, 100) "0:0";
                              stamped 5400 200 800 (400, 100) "0:0"]])) as H
    by (vm_compute; reflexivity).
  split; [exact H |].
  exact (walk_keeps_existing_files (lw := ascii_lower) (fun _ => half_minute)
           (fun p => p) listing "/videos" after_clean thumbnail _ H).
Defined.

Lemma walk_writes_only_thumbnails_witness :
  files (snd walk) !! "/videos/movie_thumbnail.png"
  <> files fresh !! "/videos/movie_thumbnail.png" /\
  exists video_file,
    video_file ∈ listing "/videos" /\
    is_video_file (lw := ascii_lower) video_file = true /\
    "/videos/movie_thumbnail.png"
    = thumbnail_of (Path.join "/videos" video_file) "/videos".
Proof.
  assert (files (snd walk) !! "/videos/movie_thumbnail.png"
          <> files fresh !! "/videos/movie_thumbnail.png") as H
    by (vm_compute; discriminate).
  split; [exact H |].
  exact (walk_writes_only_thumbnails (lw := ascii_lower) (fun _ => half_minute)
           (fun p => p) listing "/videos" fresh "/videos/movie_thumbnail.png" H).
Defined.

End WalkWitnesses.

(** ** The thumbnail path (thumb.py, lines 16-17) *)

Section PathFacts.

Lemma append_nil_l (s : string) : EmptyString +:+ s = s.
Proof. reflexivity. Qed.

Lemma append_cons (a : ascii) (s1 s2 : string) :
  String a s1 +:+ s2 = String a (s1 +:+ s2).
Proof. reflexivity. Qed.

Lemma rfind_from_shift (c : ascii) (s : string) (i : nat) :
  Str.rfind_from c s i = Nat.add i <$> Str.rfind_from c s 0.
Proof.
  revert i. induction s as [| a s IH]; intros i; [reflexivity |].
  cbn [Str.rfind_from]. rewrite (IH (S i)), (IH 1%nat).
  destruct (Str.rfind_from c s 0) as [k |]; cbn.
  - f_equal. lia.
  - destruct (Ascii.eqb a c); cbn; [f_equal; lia | reflexivity].
Qed.

Lemma rfind_from_none (c : ascii) (s : string) (i : nat) :
  Str.rfind c s = None -> Str.rfind_from c s i = None.
Proof. unfold Str.rfind. intros H. now rewrite rfind_from_shift, H. Qed.

Lemma rfind_from_app (c : ascii) (s1 s2 : string) (i : nat) :
  Str.rfind_from c (s1 +:+ s2) i
  = match Str.rfind_from c s2 (i + String.length s1) with
    | Some k => Some k
    | None => Str.rfind_from c s1 i
    end.
Proof.
  revert i. induction s1 as [| a s1 IH]; intros i.
  - rewrite append_nil_l. cbn [String.length]. rewrite Nat.add_0_r.
    now destruct (Str.rfind_from c s2 i).
  - rewrite append_cons. cbn [Str.rfind_from String.length]. rewrite IH.
    replace (S i + String.length s1)%nat with (i + S (String.length s1))%nat by lia.
    now destruct (Str.rfind_from c s2 _).
Qed.

(** The last [c] of [pre ++ c ++ rest], when [rest] has none. *)
Lemma rfind_last (c : ascii) (pre rest : string) :
  Str.rfind c rest = None ->
  Str.rfind c (pre +:+ String c rest) = Some (String.length pre).
Proof.
  intros Hnone. unfold Str.rfind. rewrite rfind_from_app. cbn [Str.rfind_from].
  rewrite (rfind_from_none c rest _ Hnone), Ascii.eqb_refl. reflexivity.
Qed.

Lemma rfind_app_none (c : ascii) (s1 s2 : string) :
  Str.rfind c s1 = None -> Str.rfind c s2 = None -> Str.rfind c (s1 +:+ s2) = None.
Proof.
  intros H1 H2. unfold Str.rfind. rewrite rfind_from_app.
  now rewrite (rfind_from_none c s2 _ H2).
Qed.

Lemma rfind_cons_none (c a : ascii) (s : string) :
  Ascii.eqb a c = false -> Str.rfind c s = None -> Str.rfind c (String a s) = None.
Proof.
  intros Hac Hnone. unfold Str.rfind. cbn [Str.rfind_from].
  now rewrite (rfind_from_none c s _ Hnone), Hac.
Qed.

Lemma length_append (s1 s2 : string) :
  String.length (s1 +:+ s2) = (String.length s1 + String.length s2)%nat.
Proof.
  induction s1 as [| a s1 IH]; [reflexivity |].
  rewrite append_cons. cbn [String.length]. now rewrite IH.
Qed.

Lemma substring_all (s : string) : String.substring 0 (String.length s) s = s.
Proof. induction s as [| a s IH]; cbn; [reflexivity | now rewrite IH]. Qed.

Lemma take_app (s1 s2 : string) : Str.take (String.length s1) (s1 +:+ s2) = s1.
Proof.
  unfold Str.take. induction s1 as [| a s1 IH].
  - rewrite append_nil_l. now destruct s2.
  - rewrite append_cons. cbn. now rewrite IH.
Qed.

Lemma drop_app (s1 s2 : string) : Str.drop (String.length s1) (s1 +:+ s2) = s2.
Proof.
  unfold Str.drop. rewrite length_append.
  replace (String.length s1 + String.length s2 - String.length s1)%nat
    with (String.length s2) by lia.
  induction s1 as [| a s1 IH]; [rewrite append_nil_l; apply substring_all |].
  rewrite append_cons. cbn. exact IH.
Qed.

Lemma string_of_list_app (k l : list ascii) :
  String.string_of_list_ascii (k ++ l) = String.string_of_list_ascii k +:+ String.string_of_list_ascii l.
Proof.
  induction k as [| a k IH]; [reflexivity |].
  cbn [app String.string_of_list_ascii]. now rewrite append_cons, IH.
Qed.

Lemma append_assoc (s1 s2 s3 : string) : (s1 +:+ s2) +:+ s3 = s1 +:+ (s2 +:+ s3).
Proof.
  induction s1 as [| a s1 IH]; [reflexivity |].
  now rewrite !append_cons, IH.
Qed.

(** [basename] of a path that ends with a slash and a name without
    slash. *)
Lemma basename_after_slash (pre name : string) :
  Str.rfind "/"%char name = None ->
  Path.basename (pre +:+ String "/"%char name) = name.
Proof.
  intros Hnone. unfold Path.basename. rewrite (rfind_last _ pre name Hnone).
  change (pre +:+ String "/"%char name) with (pre +:+ ("/" +:+ name)).
  rewrite <- append_assoc.
  replace (S (String.length pre)) with (String.length (pre +:+ "/"))
    by (rewrite length_append; cbn; lia).
  apply drop_app.
Qed.

(** A name without slash that is not empty is what [basename] gives
    back after [join]. *)
Lemma basename_join (directory name : string) :
  name <> EmptyString -> Str.rfind "/"%char name = None ->
  Path.basename (Path.join directory name) = name.
Proof.
  intros Hne Hnone. unfold Path.join.
  assert (Str.startswith name "/" = false) as ->.
  { destruct name as [| a name']; [congruence |].
    unfold Str.rfind in Hnone. cbn [Str.rfind_from] in Hnone.
    destruct (Str.rfind_from _ name' 1); [discriminate |].
    destruct (Ascii.eqb_spec a "/"%char) as [-> | Hneq]; [discriminate |].
    unfold Str.startswith.
    change (String.prefix "/" (String a name'))
      with (if ascii_dec "/"%char a then String.prefix EmptyString name' else false).
    destruct (ascii_dec "/"%char a) as [E | _]; [congruence | reflexivity]. }
  destruct (String.eqb_spec directory EmptyString) as [-> | Hdir]; cbn [orb].
  - rewrite append_nil_l. unfold Path.basename. now rewrite Hnone.
  - destruct (Str.endswith directory "/") eqn:Hend.
    + unfold Str.endswith in Hend. apply bool_decide_eq_true in Hend as [k Hk].
      assert (directory = String.string_of_list_ascii k +:+ "/") as ->.
      { rewrite <- (String.string_of_list_ascii_of_string directory).
        unfold Str.chars in Hk. rewrite Hk, string_of_list_app. reflexivity. }
      rewrite append_assoc. now apply basename_after_slash.
    + now apply basename_after_slash.
Qed.

(** [splitext] of [stem.ext]. *)
Lemma splitext_stem (stem ext : string) :
  Str.rfind "/"%char stem = None ->
  Path.has_non_dot stem 0 (String.length stem) = true ->
  Str.rfind "/"%char ext = None ->
  Str.rfind "."%char ext = None ->
  Path.splitext (stem +:+ "." +:+ ext) = (stem, "." +:+ ext).
Proof.
  intros Hs Hd He1 He2. unfold Path.splitext.
  change (stem +:+ "." +:+ ext) with (stem +:+ String "."%char ext).
  change ("." +:+ ext) with (String "."%char ext).
  assert (Str.rfind "/"%char (stem +:+ String "."%char ext) = None) as ->.
  { apply rfind_app_none; [exact Hs |]. now apply rfind_cons_none. }
  rewrite (rfind_last _ stem ext He2).
  cbn [Nat.leb andb]. unfold Path.has_non_dot in *.
  rewrite Nat.sub_0_r in *. fold (Str.take (String.length stem) stem) in Hd.
  fold (Str.take (String.length stem) (stem +:+ String "."%char ext)).
  rewrite take_app. unfold Str.take in Hd. rewrite substring_all in Hd. rewrite Hd.
  now rewrite drop_app.
Qed.

End PathFacts.

(** X21. The thumbnail of [<directory>/<stem>.<ext>] is
    [<directory>/<stem>_thumbnail.png], for a stem without slash that has
    a character other than a dot, and an extension without slash or dot:
    the extension of the video is not part of the name, so two videos of
    one directory that differ in their extension only have one
    thumbnail path. *)
Theorem thumbnail_path_drops_extension (directory stem ext : string) :
  Str.rfind "/"%char stem = None ->
  Path.has_non_dot stem 0 (String.length stem) = true ->
  Str.rfind "/"%char ext = None ->
  Str.rfind "."%char ext = None ->
  thumbnail_of (Path.join directory (stem +:+ "." +:+ ext)) directory
  = Path.join directory (stem +:+ "_thumbnail.png").
Proof.
  intros Hs Hd He1 He2. unfold thumbnail_of.
  rewrite basename_join.
  - now rewrite splitext_stem.
  - destruct stem; discriminate.
  - change (stem +:+ "." +:+ ext) with (stem +:+ String "."%char ext).
    apply rfind_app_none; [exact Hs |]. now apply rfind_cons_none.
Qed.

Lemma thumbnail_path_drops_extension_witness :
  Str.rfind "/"%char "holiday.2019" = None /\
  Path.has_non_dot "holiday.2019" 0 (String.length "holiday.2019") = true /\
  Str.rfind "/"%char "MKV" = None /\
  Str.rfind "."%char "MKV" = None /\
  thumbnail_of (Path.join "/videos" ("holiday.2019" +:+ "." +:+ "MKV")) "/videos"
  = Path.join "/videos" ("holiday.2019" +:+ "_thumbnail.png").
Proof.
  assert (Str.rfind "/"%char "holiday.2019" = None) as H1 by reflexivity.
  assert (Path.has_non_dot "holiday.2019" 0 (String.length "holiday.2019") = true)
    as H2 by reflexivity.
  assert (Str.rfind "/"%char "MKV" = None) as H3 by reflexivity.
  assert (Str.rfind "."%char "MKV" = None) as H4 by reflexivity.
  repeat (split; [assumption |]).
  exact (thumbnail_path_drops_extension "/videos" "holiday.2019" "MKV" H1 H2 H3 H4).
Defined.

(** ** Thumbnails in the video directory *)

Section NameFacts.

(** A string and any of its suffixes that is not empty end with the same
    character. *)
Lemma endswith_last (s suffix : string) (c : ascii) :
  last (Str.chars suffix) = Some c ->
  Str.endswith s suffix = true -> last (Str.chars s) = Some c.
Proof.
  intros Hlast Hend. unfold Str.endswith in Hend.
  apply bool_decide_eq_true in Hend as [k ->].
  now rewrite last_app, Hlast.
Qed.

End NameFacts.

(** X22. A file whose name ends with [_thumbnail.png] is not a video
    file for the walk: the thumbnails that a walk writes into the video
    directory are not taken for videos by a later walk. *)
Theorem thumbnails_are_not_videos {lw : Lower} (name : string) :
  is_video_file (name +:+ "_thumbnail.png") = false.
Proof.
  unfold is_video_file.
  destruct (lower_keeps_ascii_suffix name "_thumbnail.png" eq_refl) as [s' ->].
  assert (last (Str.chars (s' +:+ Str.lower "_thumbnail.png")) = Some "g"%char)
    as Hlast.
  { rewrite chars_app, last_app. reflexivity. }
  unfold Str.endswith_any, video_suffixes. cbn [existsb].
  repeat match goal with
         | |- context [Str.endswith ?s ?suffix] =>
             let E := fresh "E" in
             destruct (Str.endswith s suffix) eqn:E;
             [ eapply endswith_last in E; [| reflexivity];
               rewrite Hlast in E; discriminate E |]
         end.
  reflexivity.
Qed.

(** ** A video without readable frames *)

Section UnreadableFacts.
Context `{cv : Cv2}.
Variable cap : VideoCapture.
Variable fps : Q.
Variables columns frame_interval : Z.
Variables output_folder video_name : string.



End UnreadableFacts.


Section UnreadableWitness.
Import OpenCV Videos.


End UnreadableWitness.
